(** * api_inspired: the catalog query engine and its request handler

    A shallow embedding of [src/index.js]: the Fisher-Yates [shuffle], the
    [pagination] helper, the two query functions [getGoodsList] and
    [getItems], and the request handler passed to [createServer].

    Conventions of the embedding.
    - A JS string is a [string]: a sequence of 8-bit units holding the UTF-8
      encoding of the text.  [toLowerCase] is the mapping of the ASCII
      letters; the query functions are also given with the case mapping and
      the trimming as parameters ([getGoodsListWith]), and what depends on
      the case of letters is proved there, for any mapping.
    - A JS number is a [number]: [NaN], an infinity, an integer, or a
      finite double that is not an integer.  Texts are coerced with
      rounding to the nearest double; arithmetic that involves a
      non-integer goes through the binary64 operations of the Standard
      Library ([SpecFloat]).
    - A JS array that may have holes is a [list (option A)]; [None] is a
      hole.  Arrays the code never punches holes into are plain lists.
    - The query-parameter object is a [gmap string string]; a property that
      is not set reads as [None] (JS [undefined]).
    - [Math.random] is an explicit source of draws threaded through the
      computation ([Rng] and the monad [M]).
    - A thrown exception is the left injection of a sum. *)

From Stdlib Require Import ZArith NArith Ascii String List Lia.
From Corelib Require Import SpecFloat.
From stdpp Require Import gmap strings list fin_maps.

Local Open Scope string_scope.

(** ** Strings: the built-ins the source calls *)

Definition code (c : ascii) : N := N_of_ascii c.

(** [String.prototype.toLowerCase], on the ASCII letters. *)
Definition lower_ascii (c : ascii) : ascii :=
  if ((65 <=? code c) && (code c <=? 90))%N
  then ascii_of_N (code c + 32) else c.

Fixpoint toLowerCase (s : string) : string :=
  match s with
  | EmptyString => EmptyString
  | String c s' => String (lower_ascii c) (toLowerCase s')
  end.

(** The one-unit white space: TAB, LF, VT, FF, CR and SPACE. *)
Definition is_space (c : ascii) : bool :=
  (((9 <=? code c) && (code c <=? 13)) || (code c =? 32))%N.

(** U+00A0, the one white-space character of two units (C2 A0). *)
Definition is_space2 (c1 c2 : ascii) : bool :=
  ((code c1 =? 194) && (code c2 =? 160))%N.

(** The white-space characters of three units: U+1680 (E1 9A 80),
    U+2000 to U+200A, U+2028, U+2029 and U+202F (E2 80 ..), U+205F
    (E2 81 9F), U+3000 (E3 80 80) and U+FEFF (EF BB BF). *)
Definition is_space3 (c1 c2 c3 : ascii) : bool :=
  ((code c1 =? 225) && (code c2 =? 154) && (code c3 =? 128)
   || (code c1 =? 226) && (code c2 =? 128)
      && (((128 <=? code c3) && (code c3 <=? 138))
          || (code c3 =? 168) || (code c3 =? 169) || (code c3 =? 175))
   || (code c1 =? 226) && (code c2 =? 129) && (code c3 =? 159)
   || (code c1 =? 227) && (code c2 =? 128) && (code c3 =? 128)
   || (code c1 =? 239) && (code c2 =? 187) && (code c3 =? 191))%N.

Fixpoint trimStart (s : string) : string :=
  match s with
  | EmptyString => EmptyString
  | String c1 r1 =>
      if is_space c1 then trimStart r1
      else match r1 with
           | String c2 r2 =>
               if is_space2 c1 c2 then trimStart r2
               else match r2 with
                    | String c3 r3 =>
                        if is_space3 c1 c2 c3 then trimStart r3 else s
                    | EmptyString => s
                    end
           | EmptyString => s
           end
  end.

(** The text is white space throughout. *)
Definition blank (s : string) : bool := String.eqb (trimStart s) EmptyString.

(** No white-space character starts with a continuation unit, so the first
    suffix that is blank is the trailing white space. *)
Fixpoint trimEnd (s : string) : string :=
  match s with
  | EmptyString => EmptyString
  | String c s' => if blank s then EmptyString else String c (trimEnd s')
  end.

(** [String.prototype.trim]: strips the white space and line terminators
    of the language, the Unicode ones included. *)
Definition trim (s : string) : string := trimEnd (trimStart s).

(** [s.startsWith(p)]. *)
Fixpoint startsWith (s p : string) {struct p} : bool :=
  match p, s with
  | EmptyString, _ => true
  | String _ _, EmptyString => false
  | String a p', String b s' => Ascii.eqb a b && startsWith s' p'
  end.

(** [s.includes(sub)]: [sub] occurs in [s] as a contiguous substring. *)
Fixpoint includes (s sub : string) : bool :=
  startsWith s sub ||
  match s with
  | EmptyString => false
  | String _ s' => includes s' sub
  end.

(** [s.substring(n)]: the suffix from index [n]. *)
Fixpoint substring_from (n : nat) (s : string) : string :=
  match n, s with
  | O, _ => s
  | S _, EmptyString => EmptyString
  | S n', String _ s' => substring_from n' s'
  end.

(** [s.substring(a, b)] for [a <= b]. *)
Definition substring (a b : nat) (s : string) : string :=
  String.substring a (b - a) s.

(** [s.split(sep)] for a one-character separator: never an empty list. *)
Fixpoint split (sep : ascii) (s : string) : list string :=
  match s with
  | EmptyString => [EmptyString]
  | String c s' =>
      if Ascii.eqb c sep then EmptyString :: split sep s'
      else match split sep s' with
           | [] => [String c EmptyString]
           | p :: ps => String c p :: ps
           end
  end.

(** ** Numbers *)

(** A double: [NaN], an infinity, an integer, or a finite number that is
    not an integer, kept as its sign, mantissa and binary exponent.  The
    two zeros are one [Num 0]: their difference shows only in the sign of
    an infinite quotient, which the responses do not show. *)
Inductive number : Type :=
  | NaN
  | PInf
  | NInf
  | Num (z : Z)
  | Frac (negative : bool) (m : positive) (e : Z).

Definition prec : Z := 53.
Definition emax : Z := 1024.

(** From and to the binary64 format of the Standard Library. *)
Definition of_float (f : spec_float) : number :=
  match f with
  | S754_zero _ => Num 0
  | S754_infinity s => if s then NInf else PInf
  | S754_nan => NaN
  | S754_finite s m e =>
      if (0 <=? e)%Z then Num (cond_Zopp s (Z.pos m * 2 ^ e))
      else if (Z.pos m mod 2 ^ (- e) =? 0)%Z
           then Num (cond_Zopp s (Z.pos m / 2 ^ (- e)))
           else Frac s m e
  end.

Definition to_float (a : number) : spec_float :=
  match a with
  | NaN => S754_nan
  | PInf => S754_infinity false
  | NInf => S754_infinity true
  | Num z => binary_normalize prec emax z 0 false
  | Frac s m e => S754_finite s m e
  end.

(** The double nearest to the integer [z] (ties to even; an infinity past
    the largest double). *)
Definition round_integer (z : Z) : number :=
  of_float (binary_normalize prec emax z 0 false).

(** The double nearest to [n / d], for [n] and [d] positive: the quotient
    is taken with some 1200 bits and a sticky bit below them, which is
    more than any rounding to 53 bits or to a subnormal looks at. *)
Definition round_ratio (negative : bool) (n d : Z) : number :=
  let s := (Z.max 0 (Z.log2 d - Z.log2 n) + 1200)%Z in
  let q := (n * 2 ^ s / d)%Z in
  let sticky := (if n * 2 ^ s mod d =? 0 then 0 else 1)%Z in
  of_float (binary_normalize prec emax (cond_Zopp negative (2 * q + sticky))
              (- s - 1) negative).

(** The integer part of a finite number that is not an integer
    (truncation towards zero) and the least integer above it. *)
Definition trunc_frac (negative : bool) (m : positive) (e : Z) : Z :=
  cond_Zopp negative (Z.pos m / 2 ^ (- e)).

Definition ceil_frac (negative : bool) (m : positive) (e : Z) : Z :=
  if negative then - (Z.pos m / 2 ^ (- e)) else Z.pos m / 2 ^ (- e) + 1.

Definition number_eqb (a b : number) : bool :=
  match a, b with
  | PInf, PInf | NInf, NInf => true
  | Num x, Num y => (x =? y)%Z
  | Frac s m e, Frac s' m' e' =>
      Bool.eqb s s' && Pos.eqb m m' && (e =? e')%Z
  | _, _ => false                      (* NaN === NaN is false *)
  end.

(** Truthiness of a number: [0] and [NaN] are falsy. *)
Definition truthy_number (a : number) : bool :=
  match a with
  | NaN | Num 0 => false
  | _ => true
  end.

Definition inf_of_sign (positive : bool) : number :=
  if positive then PInf else NInf.

(** [a * b].  Between integers the product is kept exact; see
    [pagination] for why its rounding never shows. *)
Definition mul (a b : number) : number :=
  match a, b with
  | NaN, _ | _, NaN => NaN
  | Num x, Num y => Num (x * y)
  | PInf, PInf | NInf, NInf => PInf
  | PInf, NInf | NInf, PInf => NInf
  | PInf, Num z | Num z, PInf =>
      if (z =? 0)%Z then NaN else inf_of_sign (0 <? z)%Z
  | NInf, Num z | Num z, NInf =>
      if (z =? 0)%Z then NaN else inf_of_sign (z <? 0)%Z
  | _, _ => of_float (SFmul prec emax (to_float a) (to_float b))
  end.

(** [a - b]. *)
Definition sub (a b : number) : number :=
  match a, b with
  | NaN, _ | _, NaN => NaN
  | Num x, Num y => Num (x - y)
  | PInf, PInf | NInf, NInf => NaN
  | PInf, _ => PInf
  | NInf, _ => NInf
  | Num _, PInf => NInf
  | Num _, NInf => PInf
  | _, _ => of_float (SFsub prec emax (to_float a) (to_float b))
  end.

(** [Math.ceil(n / c)] for an array length [n]. *)
Definition ceil_div (n : nat) (c : number) : number :=
  match c with
  | NaN => NaN
  | PInf | NInf => Num 0
  | Num 0 => if Nat.eqb n 0 then NaN else PInf
  | Num z => Num (- ((- Z.of_nat n) / z))
  | Frac _ _ _ =>
      match of_float (SFdiv prec emax (to_float (Num (Z.of_nat n))) (to_float c)) with
      | Frac s m e => Num (ceil_frac s m e)
      | q => q
      end
  end.

Definition is_digit (c : ascii) : bool :=
  ((48 <=? code c) && (code c <=? 57))%N.

(** The value of a digit in a base up to sixteen, if it is one. *)
Definition digit_value (base : Z) (c : ascii) : option Z :=
  let v :=
    if is_digit c then Some (Z.of_N (code c) - 48)%Z
    else if ((65 <=? code c) && (code c <=? 70))%N
         then Some (Z.of_N (code c) - 55)%Z
         else if ((97 <=? code c) && (code c <=? 102))%N
              then Some (Z.of_N (code c) - 87)%Z
              else None in
  match v with
  | Some d => if (d <? base)%Z then Some d else None
  | None => None
  end.

(** A non-empty run of digits of the base up to the end of the text. *)
Fixpoint radix_value (base : Z) (acc : Z) (s : string) : option Z :=
  match s with
  | EmptyString => Some acc
  | String c s' =>
      match digit_value base c with
      | Some d => radix_value base (base * acc + d) s'
      | None => None
      end
  end.

Definition radix_literal (base : Z) (s : string) : number :=
  match s with
  | EmptyString => NaN
  | _ => match radix_value base 0 s with
         | Some z => round_integer z
         | None => NaN
         end
  end.

(** The leading decimal digits: their value on top of [acc], how many
    they are, and what follows them. *)
Fixpoint span_digits (acc : Z) (count : Z) (s : string) : Z * Z * string :=
  match s with
  | EmptyString => (acc, count, s)
  | String c s' =>
      if is_digit c
      then span_digits (10 * acc + (Z.of_N (code c) - 48)) (count + 1) s'
      else (acc, count, s)
  end.

(** The double nearest to [m * 10 ^ k], for [m >= 0]. *)
Definition scaled (negative : bool) (m k : Z) : number :=
  if (m =? 0)%Z then Num 0
  else if (0 <=? k)%Z then round_integer (cond_Zopp negative (m * 10 ^ k))
       else round_ratio negative m (10 ^ (- k)).

(** The exponent part, after its letter: an optional sign and digits. *)
Definition exponent_value (s : string) : option Z :=
  let digits (negative : bool) (t : string) :=
    match span_digits 0 0 t with
    | (x, n, EmptyString) =>
        if (n =? 0)%Z then None else Some (cond_Zopp negative x)
    | _ => None
    end in
  match s with
  | String "+" t => digits false t
  | String "-" t => digits true t
  | _ => digits false s
  end.

(** An unsigned decimal literal: [Infinity], or digits with an optional
    fraction and an optional exponent, at least one digit in all. *)
Definition decimal_literal (negative : bool) (s : string) : number :=
  if String.eqb s "Infinity" then inf_of_sign (negb negative)
  else
    let '(i, ni, r1) := span_digits 0 0 s in
    let '(m, nf, r2) :=
      match r1 with
      | String "." r => span_digits i 0 r
      | _ => (i, 0%Z, r1)
      end in
    if (ni + nf =? 0)%Z then NaN
    else match r2 with
         | EmptyString => scaled negative m (- nf)
         | String c r3 =>
             if Ascii.eqb c "e" || Ascii.eqb c "E"
             then match exponent_value r3 with
                  | Some x => scaled negative m (x - nf)
                  | None => NaN
                  end
             else NaN
         end.

(** The coercion of a string to a number (unary [+], and the implicit
    coercion of [*], [-] and [/]), after the grammar of numeric strings:
    white space around is dropped; the empty text is [0]; [0x], [0o] and
    [0b] introduce unsigned integers in their base; otherwise an optional
    sign precedes a decimal literal; anything else is [NaN].  The value is
    rounded to the nearest double. *)
Definition toNumber (s : string) : number :=
  match trim s with
  | EmptyString => Num 0
  | String "0" (String "x" t) | String "0" (String "X" t) => radix_literal 16 t
  | String "0" (String "o" t) | String "0" (String "O" t) => radix_literal 8 t
  | String "0" (String "b" t) | String "0" (String "B" t) => radix_literal 2 t
  | String "+" t => decimal_literal false t
  | String "-" t => decimal_literal true t
  | t => decimal_literal false t
  end.

(** ** Arrays *)

(** The relative index of [Array.prototype.slice]: a negative argument
    counts from the end, and the result is clamped to [0, len]. *)
Definition rel_index (len : nat) (a : number) : nat :=
  match a with
  | NaN => 0%nat
  | NInf => 0%nat
  | PInf => len
  | Num z =>
      if (z <? 0)%Z then Z.to_nat (Z.max (Z.of_nat len + z) 0)
      else Z.to_nat (Z.min z (Z.of_nat len))
  | Frac s m e =>
      (* [ToIntegerOrInfinity] truncates *)
      let z := trunc_frac s m e in
      if (z <? 0)%Z then Z.to_nat (Z.max (Z.of_nat len + z) 0)
      else Z.to_nat (Z.min z (Z.of_nat len))
  end.

(** [a.slice(start, end)]. *)
Definition slice {A} (a : list A) (start end_ : number) : list A :=
  let k := rel_index (length a) start in
  let final := rel_index (length a) end_ in
  take (final - k) (drop k a).

(** [a.length = n]: truncates, or pads with holes. *)
Definition set_length {A} (n : nat) (a : list (option A)) : list (option A) :=
  take n a ++ replicate (n - length a) None.

(** ** The catalog *)

(** One product record.  [display] stands for the fields the code never
    reads (price, pictures, colours, sizes). *)
Record Item : Type := {
  id : string;
  title : string;
  description : string;
  category : string;
  gender : string;
  type : string;
  top : bool;
  display : string
}.

#[local] Set Warnings "-register-all".

(** A JSON document, as far as the responses need one.  An item is kept as
    a leaf: its own serialisation is not looked into. *)
Inductive json : Type :=
  | JNull
  | JNumber (z : Z)
  | JFraction (negative : bool) (m : positive) (e : Z)
  | JString (s : string)
  | JItem (i : Item)
  | JArray (l : list json)
  | JObject (fields : list (string * json)).

(** The parsed [db.json]. *)
Record DB : Type := {
  goods : list Item;
  categories : json;
  colors : json
}.

(** ** Errors *)

(** [class ApiError]: a status code and the payload sent to the client. *)
Record ApiError : Type := {
  statusCode : nat;
  data : json
}.

(** [{ message: m }]. *)
Definition message (m : string) : json := JObject [("message", JString m)].

(** ** Randomness *)

(** The state of the random generator: the draws it is going to produce
    and how many were consumed.  A draw [k] stands for the double
    [k / 2^53] in [0, 1). *)
Record Rng : Type := {
  tape : nat -> N;
  calls : nat
}.

Definition M (A : Type) : Type := Rng -> A * Rng.

Definition ret {A} (x : A) : M A := fun g => (x, g).

Definition bind {A B} (m : M A) (k : A -> M B) : M B :=
  fun g => let (x, g') := m g in k x g'.

Notation "'let*' x ':=' m 'in' k" := (bind m (fun x => k))
  (at level 10, x name, m at level 100, k at level 200).

Definition precision : N := 2 ^ 53.

(** [Math.random()]: the numerator of the next draw. *)
Definition Math_random : M N :=
  fun g => ((tape g (calls g) mod precision)%N,
            {| tape := tape g; calls := S (calls g) |}).

(** [Math.floor(Math.random() * n)], the product taken exactly. *)
Definition random_below (n : nat) : M nat :=
  let* k := Math_random in
  ret (N.to_nat (k * N.of_nat n / precision)).

(** ** shuffle *)

(** [[a[i], a[j]] = [a[j], a[i]]]: both reads come first. *)
Definition swap {A} (a : list A) (i j : nat) : list A :=
  match a !! i, a !! j with
  | Some x, Some y => <[j:=x]> (<[i:=y]> a)
  | _, _ => a
  end.

(** The loop [for (let i = ...; i > 0; i--)], entered with counter [i]. *)
Fixpoint shuffle_from {A} (i : nat) (shuffleArray : list A) : M (list A) :=
  match i with
  | O => ret shuffleArray
  | S i' =>
      let* j := random_below (S i) in
      shuffle_from i' (swap shuffleArray i j)
  end.

Definition shuffle {A} (array : list A) : M (list A) :=
  shuffle_from (length array - 1) array.

(** ** pagination *)

Module PageResult.

Record t : Type := mk {
  goods : list Item;
  page : number;
  pages : number;
  totalCount : nat
}.

End PageResult.

(** [count] reaches the body as the query string's text or as the default
    [12]; every use of it is arithmetic, so it is taken here already
    coerced to a number.  Between two integers [mul] and [sub] are exact,
    where the code rounds past 2^53; a rounded [end] or [start] is still
    past 2^52 in size, and [slice] clamps both to the length of the array
    (below 2^32), so the page is the same. *)
Definition pagination (data : list Item) (page count : number)
  : PageResult.t :=
  let end_ := mul count page in
  let start := if number_eqb page (Num 1) then Num 0 else sub end_ count in
  let totalCount := length data in
  let pages := ceil_div (length data) count in
  PageResult.mk (slice data start end_) page pages totalCount.

(** ** getGoodsList *)

(** What [getGoodsList] returns: a raw array, or a page. *)
Inductive Goods : Type :=
  | Raw (items : list (option Item))
  | Page (r : PageResult.t).

(** Truthiness of a property of the parameter object: set, and not the
    empty string. *)
Definition truthy (v : option string) : bool :=
  match v with
  | Some s => negb (String.eqb s EmptyString)
  | None => false
  end.

(** The text of a property that was found truthy. *)
Definition text (v : option string) : string := default EmptyString v.

(** [+params.page || 1]. *)
Definition page_of (params : gmap string string) : number :=
  match params !! "page" with
  | Some s => if truthy_number (toNumber s) then toNumber s else Num 1
  | None => Num 1
  end.

(** [params.count || 12], coerced. *)
Definition count_of (params : gmap string string) : number :=
  if truthy (params !! "count") then toNumber (text (params !! "count"))
  else Num 12.

Definition is_top (t : string) (item : Item) : bool :=
  top item && String.eqb (gender item) t.

Definition matches_search (search : string) (item : Item) : bool :=
  includes (toLowerCase (title item)) search
  || includes (toLowerCase (description item)) search.

(** The three narrowing filters of lines 59-70. *)
Definition by_gender (params : gmap string string) (item : Item) : bool :=
  String.eqb (gender item) (text (params !! "gender")).

Definition by_category (params : gmap string string) (item : Item) : bool :=
  String.eqb (category item) (text (params !! "category")).

Definition by_type (params : gmap string string) (item : Item) : bool :=
  String.eqb (type item) (text (params !! "type")).

Definition getGoodsList (db : DB) (params : gmap string string)
  : M (ApiError + Goods) :=
  let page := page_of params in
  let paginationCount := count_of params in
  let data := goods db in
  if truthy (params !! "top") then
    let data := List.filter (is_top (text (params !! "top"))) data in
    let* data := shuffle data in
    ret (inr (Raw (set_length 8 (Some <$> data))))
  else
    let data :=
      if truthy (params !! "gender")
      then List.filter (by_gender params) data else data in
    (* lines 68-91, run on the [data] the category step leaves *)
    let continue (data : list Item) : M (ApiError + Goods) :=
      let data :=
        if truthy (params !! "type")
        then List.filter (by_type params) data else data in
      let data :=
        if truthy (params !! "search")
        then
          let search := toLowerCase (trim (text (params !! "search"))) in
          List.filter (matches_search search) (goods db)
        else data in
      if truthy (params !! "list") then
        let list := toLowerCase (trim (text (params !! "list"))) in
        ret (inr (Raw (Some <$>
                List.filter (fun item => includes list (id item)) (goods db))))
      else ret (inr (Page (pagination data page paginationCount))) in
    if truthy (params !! "category") then
      if negb (truthy (params !! "gender"))
      then ret (inl {| statusCode := 403; data := message "Not gender params" |})
      else continue (List.filter (by_category params) data)
    else continue data.

(** ** getGoodsList, whatever the case mapping *)

(** [toLowerCase] and [trim] are functions of the language, and the case
    mapping of the language covers every script.  Here the body of
    [getGoodsList] is given once more with the two as parameters; what is
    proved of it holds for the functions of the language. *)
Section WithBuiltins.

Variable lower : string -> string.
Variable strip : string -> string.

Definition matches_search_with (search : string) (item : Item) : bool :=
  includes (lower (title item)) search
  || includes (lower (description item)) search.

Definition getGoodsListWith (db : DB) (params : gmap string string)
  : M (ApiError + Goods) :=
  let page := page_of params in
  let paginationCount := count_of params in
  let data := goods db in
  if truthy (params !! "top") then
    let data := List.filter (is_top (text (params !! "top"))) data in
    let* data := shuffle data in
    ret (inr (Raw (set_length 8 (Some <$> data))))
  else
    let data :=
      if truthy (params !! "gender")
      then List.filter (by_gender params) data else data in
    let continue (data : list Item) : M (ApiError + Goods) :=
      let data :=
        if truthy (params !! "type")
        then List.filter (by_type params) data else data in
      let data :=
        if truthy (params !! "search")
        then
          let search := lower (strip (text (params !! "search"))) in
          List.filter (matches_search_with search) (goods db)
        else data in
      if truthy (params !! "list") then
        let list := lower (strip (text (params !! "list"))) in
        ret (inr (Raw (Some <$>
                List.filter (fun item => includes list (id item)) (goods db))))
      else ret (inr (Page (pagination data page paginationCount))) in
    if truthy (params !! "category") then
      if negb (truthy (params !! "gender"))
      then ret (inl {| statusCode := 403; data := message "Not gender params" |})
      else continue (List.filter (by_category params) data)
    else continue data.

End WithBuiltins.

(** ** getItems *)

Definition getItems (db : DB) (itemId : string) : ApiError + Item :=
  match List.find (fun item => String.eqb (id item) itemId) (goods db) with
  | Some item => inr item
  | None => inl {| statusCode := 404; data := message "Item Not Found" |}
  end.

(** ** The request handler *)

Definition URI_PREFIX : string := "/api/goods".

(** What can be thrown while a request is handled. *)
Inductive exn : Type :=
  | Api (e : ApiError)
  | URIError
  | ReferenceError.

Definition hex_value (c : ascii) : option N :=
  if is_digit c then Some (code c - 48)%N
  else if ((65 <=? code c) && (code c <=? 70))%N then Some (code c - 55)%N
  else if ((97 <=? code c) && (code c <=? 102))%N then Some (code c - 87)%N
  else None.

(** A unit of an encoded component: a literal character or an escape
    [%XX] with its value. *)
Inductive unit_ : Type :=
  | Lit (c : ascii)
  | Esc (b : N).

Fixpoint escapes (s : string) : option (list unit_) :=
  match s with
  | EmptyString => Some []
  | String "%" (String h (String l s')) =>
      match hex_value h, hex_value l, escapes s' with
      | Some x, Some y, Some us => Some (Esc (16 * x + y) :: us)
      | _, _, _ => None
      end
  | String "%" _ => None
  | String c s' => cons (Lit c) <$> escapes s'
  end.

Definition between (lo b hi : N) : bool := ((lo <=? b) && (b <=? hi))%N.

(** The second octet a lead octet of a three- or four-octet sequence
    allows: no overlong form, no surrogate, nothing above U+10FFFF. *)
Definition second_ok (b1 b2 : N) : bool :=
  if (b1 =? 224)%N then between 160 b2 191
  else if (b1 =? 237)%N then between 128 b2 159
  else if (b1 =? 240)%N then between 144 b2 191
  else if (b1 =? 244)%N then between 128 b2 143
  else between 128 b2 191.

Definition octets (bs : list N) (s : string) : string :=
  foldr (fun b r => String (ascii_of_N b) r) s bs.

Fixpoint decode_units (us : list unit_) : option string :=
  match us with
  | [] => Some EmptyString
  | Lit c :: r => String c <$> decode_units r
  | Esc b1 :: r =>
      if (b1 <? 128)%N then octets [b1] <$> decode_units r
      else if between 194 b1 223 then
        match r with
        | Esc b2 :: r' =>
            if between 128 b2 191 then octets [b1; b2] <$> decode_units r'
            else None
        | _ => None
        end
      else if between 224 b1 239 then
        match r with
        | Esc b2 :: Esc b3 :: r' =>
            if second_ok b1 b2 && between 128 b3 191
            then octets [b1; b2; b3] <$> decode_units r'
            else None
        | _ => None
        end
      else if between 240 b1 244 then
        match r with
        | Esc b2 :: Esc b3 :: Esc b4 :: r' =>
            if second_ok b1 b2 && between 128 b3 191 && between 128 b4 191
            then octets [b1; b2; b3; b4] <$> decode_units r'
            else None
        | _ => None
        end
      else None
  end.

(** [decodeURIComponent]: [None] when it throws [URIError], that is on a
    [%] not followed by two hexadecimal digits and on escapes that are not
    the UTF-8 encoding of a code point. *)
Definition decodeURIComponent (s : string) : option string :=
  escapes s ≫= decode_units.

(** The loop over [query.split("&")], filling [queryParams]. *)
Fixpoint parse_pieces (pieces : list string) (queryParams : gmap string string)
  : exn + gmap string string :=
  match pieces with
  | [] => inr queryParams
  | piece :: rest =>
      let kv := split "=" piece in
      let key := hd EmptyString kv in
      let value := kv !! 1%nat in
      if truthy value then
        match decodeURIComponent (text value) with
        | Some v => parse_pieces rest (<[key:=v]> queryParams)
        | None => inl URIError
        end
      else parse_pieces rest (<[key:=EmptyString]> queryParams)
  end.

Definition parse_query (query : option string) : exn + gmap string string :=
  if truthy query then parse_pieces (split "&" (text query)) ∅
  else inr ∅.

(** [JSON.stringify] of a number: [null] unless it is finite. *)
Definition json_of_number (a : number) : json :=
  match a with
  | Num z => JNumber z
  | Frac s m e => JFraction s m e
  | _ => JNull
  end.

(** [JSON.stringify] of an array slot: a hole is written [null]. *)
Definition json_of_slot (slot : option Item) : json :=
  match slot with
  | Some item => JItem item
  | None => JNull
  end.

Definition json_of_goods (r : Goods) : json :=
  match r with
  | Raw items => JArray (json_of_slot <$> items)
  | Page p =>
      JObject [("goods", JArray (JItem <$> PageResult.goods p));
               ("page", json_of_number (PageResult.page p));
               ("pages", json_of_number (PageResult.pages p));
               ("totalCount", JNumber (Z.of_nat (PageResult.totalCount p)))]
  end.

(** The outcome of one request. *)
Inductive Outcome : Type :=
  | Sent (status : nat) (body : option json)   (* [res.end] was reached *)
  | Uncaught (e : exn).                        (* the handler's promise rejects *)

(** The function run inside [try]: [None] is an [undefined] body. *)
Definition route (db : DB) (method uri : string)
    (queryParams : gmap string string) : M (exn + option json) :=
  let postPrefix := substring_from 1 uri in
  if negb (String.eqb method "GET") then ret (inr None)
  else if String.eqb uri EmptyString || String.eqb uri "/" then
    let* r := getGoodsList db queryParams in
    ret (match r with
         | inl e => inl (Api e)
         | inr g => inr (Some (json_of_goods g))
         end)
  else
    ret (match getItems db postPrefix with
         | inl e => inl (Api e)
         | inr item => inr (Some (JItem item))
         end).

(** [res.end(JSON.stringify(body))] and the [catch] clause. *)
Definition respond (r : exn + option json) : Outcome :=
  match r with
  | inr body => Sent 200 body
  | inl (Api e) => Sent (statusCode e) (Some (data e))
  | inl _ => Sent 500 (Some (message "Server Error"))
  end.

Record Request : Type := {
  method : string;
  url : string
}.

(** The file is an ES module (it opens with [import] and reads
    [import.meta.url]), where [require] is not bound: on the [img] branch
    the call [require("fs")] of line 106 throws a [ReferenceError] outside
    any [try], before a byte is written. *)
Definition handler (db : DB) (req : Request) : M Outcome :=
  if String.eqb (substring 1 4 (url req)) "img"
  then ret (Uncaught ReferenceError)
  else if String.eqb (method req) "OPTIONS" then ret (Sent 200 None)
  else if includes (url req) "/api/categories"
  then ret (Sent 200 (Some (categories db)))
  else if includes (url req) "/api/colors"
  then ret (Sent 200 (Some (colors db)))
  else if negb (startsWith (url req) URI_PREFIX)
  then ret (Sent 404 (Some (message "Not Found")))
  else
    let parts := split "?" (substring_from (String.length URI_PREFIX) (url req)) in
    let uri := hd EmptyString parts in
    let query := parts !! 1%nat in
    match parse_query query with
    | inl e => ret (Uncaught e)        (* thrown before [try] is entered *)
    | inr queryParams =>
        let* r := route db (method req) uri queryParams in
        ret (respond r)
    end.

(** ** Notions used to state the properties *)

(** [data] after lines 59-70 when the guard of line 64 does not throw. *)
Definition narrowed (db : DB) (params : gmap string string) : list Item :=
  let data := goods db in
  let data :=
    if truthy (params !! "gender")
    then List.filter (by_gender params) data else data in
  let data :=
    if truthy (params !! "category")
    then List.filter (by_category params) data else data in
  if truthy (params !! "type")
  then List.filter (by_type params) data else data.

(** The normalised search text of line 73. *)
Definition search_of (params : gmap string string) : string :=
  toLowerCase (trim (text (params !! "search"))).

(** The normalised identifier list of line 83. *)
Definition list_of (params : gmap string string) : string :=
  toLowerCase (trim (text (params !! "list"))).

(** [data] as line 91 hands it to [pagination]. *)
Definition filtered (db : DB) (params : gmap string string) : list Item :=
  if truthy (params !! "search")
  then List.filter (matches_search (search_of params)) (goods db)
  else narrowed db params.

(** The same with the case mapping and the trimming as parameters. *)
Definition filteredWith (lower strip : string -> string) (db : DB)
    (params : gmap string string) : list Item :=
  if truthy (params !! "search")
  then List.filter
         (matches_search_with lower (lower (strip (text (params !! "search")))))
         (goods db)
  else narrowed db params.

(** The guard of lines 63-64 fires. *)
Definition category_without_gender (params : gmap string string) : bool :=
  truthy (params !! "category") && negb (truthy (params !! "gender")).

(** The call runs down to line 91. *)
Definition reaches_pagination (params : gmap string string) : bool :=
  negb (truthy (params !! "top"))
  && negb (category_without_gender params)
  && negb (truthy (params !! "list")).

(** The catalog items the [top] branch keeps. *)
Definition top_matches (db : DB) (params : gmap string string) : list Item :=
  List.filter (is_top (text (params !! "top"))) (goods db).

(** [Math.ceil(len / c)] as a count of pages, for [c > 0]. *)
Definition page_count (len : nat) (c : Z) : nat :=
  Z.to_nat (- (- Z.of_nat len / c)).

(** The items of a page result; nothing for any other result. *)
Definition goods_of (r : ApiError + Goods) : list Item :=
  match r with
  | inr (Page p) => PageResult.goods p
  | _ => []
  end.

Definition error403 : ApiError :=
  {| statusCode := 403; data := message "Not gender params" |}.

Definition error404 : ApiError :=
  {| statusCode := 404; data := message "Item Not Found" |}.

(** ** Sample data *)

Definition sample (i g c : string) (t : bool) : Item :=
  {| id := i; title := "T-Shirt " ++ i; description := "plain";
     category := c; gender := g; type := "tops"; top := t;
     display := EmptyString |}.

(** The catalog of the spec's example, extended by one item. *)
Definition db3 : DB :=
  {| goods := [sample "1" "women" "dress" true;
               sample "2" "men" "dress" true;
               sample "3" "women" "socks" false];
     categories := JArray [];
     colors := JArray [] |}.

(** Thirteen items: one more than the default page size. *)
Definition db13 : DB :=
  {| goods := (fun n => sample (String (ascii_of_nat (65 + n)) EmptyString)
                               "women" "dress" true) <$> seq 0 13;
     categories := JArray [];
     colors := JArray [] |}.

Definition rng0 : Rng :=
  {| tape := fun n => (N.of_nat n * 3000000000000000)%N; calls := 0 |}.

(** * Properties *)

(** ** Substrings *)

Lemma startsWith_spec (s p : string) :
  startsWith s p = true ↔ ∃ post, s = p ++ post.
Proof.
  revert s. induction p as [|a p IH]; intros s; simpl.
  - split; [eauto|done].
  - destruct s as [|b s].
    + split; [done|]. intros [post H]. discriminate H.
    + rewrite andb_true_iff, IH. split.
      * intros [Hab [post ->]]. apply Ascii.eqb_eq in Hab as ->. eauto.
      * intros [post H]. injection H as -> ->.
        split; [apply Ascii.eqb_refl|eauto].
Qed.

(** [includes] is containment as a contiguous substring. *)
Lemma includes_spec (s sub : string) :
  includes s sub = true ↔ ∃ pre post, s = pre ++ sub ++ post.
Proof.
  induction s as [|c s IH].
  - simpl. rewrite orb_false_r, startsWith_spec. split.
    + intros [post H]. exists EmptyString, post. done.
    + intros [pre [post H]]. destruct pre; [eauto|discriminate H].
  - cbn [includes]. rewrite orb_true_iff, startsWith_spec, IH. split.
    + intros [[post H]|[pre [post H]]].
      * exists EmptyString, post. done.
      * exists (String c pre), post. simpl. by rewrite H.
    + intros [pre [post H]]. destruct pre as [|c' pre].
      * left. eauto.
      * right. simpl in H. injection H as _ H. eauto.
Qed.

(** ** Filtering *)

Lemma filter_sublist {A} (f : A → bool) (l : list A) :
  sublist (List.filter f l) l.
Proof.
  induction l as [|x l IH]; simpl; [constructor|].
  destruct (f x); by constructor.
Qed.

Lemma narrowed_sublist db params : sublist (narrowed db params) (goods db).
Proof.
  unfold narrowed.
  repeat match goal with
         | |- context [if ?b then _ else _] => destruct b
         end;
    repeat (etrans; [apply filter_sublist|]); done.
Qed.

Lemma filtered_sublist db params : sublist (filtered db params) (goods db).
Proof.
  unfold filtered. destruct (truthy _).
  - apply filter_sublist.
  - apply narrowed_sublist.
Qed.

(** ** Which branch a call takes *)

Lemma getGoodsList_top db params g :
  truthy (params !! "top") = true →
  getGoodsList db params g =
    (let (shuffled, g') := shuffle (top_matches db params) g in
     (inr (Raw (set_length 8 (Some <$> shuffled))), g')).
Proof.
  intros Htop. unfold getGoodsList, top_matches, bind, ret. rewrite Htop.
  by destruct (shuffle _ g).
Qed.

Lemma getGoodsList_403 db params g :
  truthy (params !! "top") = false →
  category_without_gender params = true →
  getGoodsList db params g = (inl error403, g).
Proof.
  unfold category_without_gender, getGoodsList. intros ->.
  rewrite andb_true_iff. by intros [-> ->].
Qed.

Lemma getGoodsList_list db params g :
  truthy (params !! "top") = false →
  category_without_gender params = false →
  truthy (params !! "list") = true →
  getGoodsList db params g =
    (inr (Raw (Some <$> List.filter (fun item => includes (list_of params) (id item))
                                    (goods db))), g).
Proof.
  unfold category_without_gender, getGoodsList, list_of. intros -> Hguard ->.
  destruct (truthy (params !! "category")), (truthy (params !! "gender"));
    done.
Qed.

Lemma getGoodsList_page db params g :
  reaches_pagination params = true →
  getGoodsList db params g =
    (inr (Page (pagination (filtered db params) (page_of params) (count_of params))),
     g).
Proof.
  unfold reaches_pagination, category_without_gender.
  rewrite !andb_true_iff, !negb_true_iff. intros [[Htop Hguard] Hlist].
  unfold getGoodsList, filtered, narrowed, search_of. rewrite Htop, Hlist.
  destruct (truthy (params !! "category")), (truthy (params !! "gender"));
    done.
Qed.

(** ** The same branches, whatever the case mapping *)

Lemma getGoodsList_instance db params :
  getGoodsList db params = getGoodsListWith toLowerCase trim db params.
Proof. reflexivity. Qed.

Lemma filteredWith_sublist lower strip db params :
  sublist (filteredWith lower strip db params) (goods db).
Proof.
  unfold filteredWith. destruct (truthy _).
  - apply filter_sublist.
  - apply narrowed_sublist.
Qed.

Lemma getGoodsListWith_403 lower strip db params g :
  truthy (params !! "top") = false →
  category_without_gender params = true →
  getGoodsListWith lower strip db params g = (inl error403, g).
Proof.
  unfold category_without_gender, getGoodsListWith. intros ->.
  rewrite andb_true_iff. by intros [-> ->].
Qed.

Lemma getGoodsListWith_list lower strip db params g :
  truthy (params !! "top") = false →
  category_without_gender params = false →
  truthy (params !! "list") = true →
  getGoodsListWith lower strip db params g =
    (inr (Raw (Some <$> List.filter
                 (fun item => includes (lower (strip (text (params !! "list"))))
                                       (id item))
                 (goods db))), g).
Proof.
  unfold category_without_gender, getGoodsListWith. intros -> Hguard ->.
  destruct (truthy (params !! "category")), (truthy (params !! "gender"));
    done.
Qed.

Lemma getGoodsListWith_page lower strip db params g :
  reaches_pagination params = true →
  getGoodsListWith lower strip db params g =
    (inr (Page (pagination (filteredWith lower strip db params)
                  (page_of params) (count_of params))), g).
Proof.
  unfold reaches_pagination, category_without_gender.
  rewrite !andb_true_iff, !negb_true_iff. intros [[Htop Hguard] Hlist].
  unfold getGoodsListWith, filteredWith, narrowed. rewrite Htop, Hlist.
  destruct (truthy (params !! "category")), (truthy (params !! "gender"));
    done.
Qed.

(** ** Slices and pages *)

Lemma rel_index_nonneg (len : nat) (z : Z) :
  (0 ≤ z)%Z → rel_index len (Num z) = Z.to_nat z `min` len.
Proof.
  intros Hz. unfold rel_index.
  destruct (Z.ltb_spec z 0); lia.
Qed.

Lemma take_drop_clamp {A} (l : list A) (a b : nat) :
  take (b `min` length l - a `min` length l) (drop (a `min` length l) l)
  = take (b - a) (drop a l).
Proof.
  destruct (Nat.le_gt_cases (length l) a) as [Ha|Ha].
  - rewrite (drop_ge l a) by done.
    rewrite (drop_ge l (_ `min` _)) by lia. by rewrite !take_nil.
  - replace (a `min` length l) with a by lia.
    destruct (Nat.le_gt_cases b (length l)) as [Hb|Hb].
    + by replace (b `min` length l) with b by lia.
    + rewrite !take_ge; [done| |]; rewrite length_drop; lia.
Qed.

Lemma slice_nonneg {A} (l : list A) (a b : Z) :
  (0 ≤ a)%Z → (0 ≤ b)%Z →
  slice l (Num a) (Num b) = take (Z.to_nat b - Z.to_nat a) (drop (Z.to_nat a) l).
Proof.
  intros Ha Hb. unfold slice.
  rewrite !rel_index_nonneg by done. apply take_drop_clamp.
Qed.

Lemma slice_length {A} (l : list A) (a b : number) :
  length (slice l a b)
  = (rel_index (length l) b - rel_index (length l) a)
      `min` (length l - rel_index (length l) a).
Proof. unfold slice. by rewrite length_take, length_drop. Qed.

(** A page in range is the window of [c] items that starts at
    [(p - 1) * c]. *)
Lemma pagination_goods (data : list Item) (p c : Z) :
  (1 ≤ p)%Z → (0 < c)%Z →
  PageResult.goods (pagination data (Num p) (Num c))
  = take (Z.to_nat c) (drop (Z.to_nat ((p - 1) * c)) data).
Proof.
  intros Hp Hc. unfold pagination. cbn [PageResult.goods mul sub number_eqb].
  destruct (Z.eqb_spec p 1) as [->|Hne].
  - rewrite slice_nonneg by lia.
    replace (Z.to_nat (c * 1) - Z.to_nat 0)%nat with (Z.to_nat c) by lia.
    by replace (Z.to_nat ((1 - 1) * c)) with (Z.to_nat 0) by lia.
  - rewrite slice_nonneg by nia.
    replace (Z.to_nat (c * p) - Z.to_nat (c * p - c))%nat with (Z.to_nat c)
      by nia.
    by replace (c * p - c)%Z with ((p - 1) * c)%Z by lia.
Qed.

Lemma ceil_bounds (len : nat) (c : Z) :
  (0 < c)%Z →
  (0 ≤ - (- Z.of_nat len / c))%Z
  ∧ (Z.of_nat len ≤ - (- Z.of_nat len / c) * c)%Z
  ∧ (- (- Z.of_nat len / c) * c < Z.of_nat len + c)%Z.
Proof.
  intros Hc.
  pose proof (Z.div_mod (- Z.of_nat len) c ltac:(lia)) as Hdm.
  pose proof (Z.mod_pos_bound (- Z.of_nat len) c Hc) as Hmod.
  nia.
Qed.

Lemma pagination_pages (data : list Item) (page : number) (c : Z) :
  (0 < c)%Z →
  PageResult.pages (pagination data page (Num c))
  = Num (Z.of_nat (page_count (length data) c)).
Proof.
  intros Hc. unfold pagination, page_count. cbn [PageResult.pages ceil_div].
  destruct (ceil_bounds (length data) c Hc) as [H0 _].
  destruct c; [lia| |lia]. f_equal. lia.
Qed.

(** The first [k] windows of width [c] make up the first [k * c] items. *)
Lemma windows_take {A} (l : list A) (c k : nat) :
  concat ((fun q => take c (drop (q * c) l)) <$> seq 0 k) = take (k * c) l.
Proof.
  induction k as [|k IH]; [done|].
  rewrite seq_S, fmap_app, concat_app, IH. simpl.
  rewrite app_nil_r.
  rewrite <- (take_drop (k * c) (take (c + k * c) l)).
  rewrite take_take, skipn_firstn_comm.
  f_equal; f_equal; lia.
Qed.

(** Pages [1 .. pages] of a sequence, one after the other, are the
    sequence. *)
Lemma pages_concat (data : list Item) (c : Z) :
  (0 < c)%Z →
  concat ((fun q => PageResult.goods (pagination data (Num (Z.of_nat q)) (Num c)))
            <$> seq 1 (page_count (length data) c))
  = data.
Proof.
  intros Hc.
  transitivity
    (concat ((fun q => take (Z.to_nat c) (drop (q * Z.to_nat c) data))
               <$> seq 0 (page_count (length data) c))).
  - rewrite <- seq_shift, <- list_fmap_compose. f_equal.
    apply list_fmap_ext. intros _ q _. unfold compose.
    rewrite pagination_goods by lia. do 2 f_equal. lia.
  - rewrite windows_take. apply take_ge.
    destruct (ceil_bounds (length data) c Hc) as (H0 & Hle & _).
    unfold page_count. nia.
Qed.

(** ** The [page] parameter only selects the window *)

Lemma filtered_set_page db params s :
  filtered db (<["page":=s]> params) = filtered db params.
Proof.
  unfold filtered, narrowed, search_of, by_gender, by_category, by_type.
  by rewrite !lookup_insert_ne by done.
Qed.

Lemma reaches_pagination_set_page params s :
  reaches_pagination (<["page":=s]> params) = reaches_pagination params.
Proof.
  unfold reaches_pagination, category_without_gender.
  by rewrite !lookup_insert_ne by done.
Qed.

Lemma count_of_set_page params s :
  count_of (<["page":=s]> params) = count_of params.
Proof. unfold count_of. by rewrite !lookup_insert_ne by done. Qed.

Lemma page_of_set_page params s p :
  toNumber s = Num p → p ≠ 0%Z → page_of (<["page":=s]> params) = Num p.
Proof.
  intros Hs Hp. unfold page_of. rewrite lookup_insert_eq, Hs.
  by destruct p.
Qed.

Lemma filteredWith_set_page lower strip db params s :
  filteredWith lower strip db (<["page":=s]> params)
  = filteredWith lower strip db params.
Proof.
  unfold filteredWith, narrowed, by_gender, by_category, by_type.
  by rewrite !lookup_insert_ne by done.
Qed.

Lemma count_of_spec params c :
  (truthy (params !! "count") = true
   ∧ toNumber (text (params !! "count")) = Num c)
  ∨ (truthy (params !! "count") = false ∧ c = 12%Z) →
  count_of params = Num c.
Proof. unfold count_of. by intros [[-> ->]|[-> ->]]. Qed.

(** The call made for page [s] of a paginated query. *)
Lemma getGoodsList_set_page db params g s p c :
  reaches_pagination params = true →
  count_of params = Num c →
  toNumber s = Num p → p ≠ 0%Z →
  getGoodsList db (<["page":=s]> params) g
  = (inr (Page (pagination (filtered db params) (Num p) (Num c))), g).
Proof.
  intros Hreach Hc Hs Hp.
  rewrite getGoodsList_page by by rewrite reaches_pagination_set_page.
  by rewrite filtered_set_page, count_of_set_page, Hc,
    (page_of_set_page _ _ p).
Qed.

Lemma getGoodsListWith_set_page lower strip db params g s p c :
  reaches_pagination params = true →
  count_of params = Num c →
  toNumber s = Num p → p ≠ 0%Z →
  getGoodsListWith lower strip db (<["page":=s]> params) g
  = (inr (Page (pagination (filteredWith lower strip db params)
                  (Num p) (Num c))), g).
Proof.
  intros Hreach Hc Hs Hp.
  rewrite getGoodsListWith_page by by rewrite reaches_pagination_set_page.
  by rewrite filteredWith_set_page, count_of_set_page, Hc,
    (page_of_set_page _ _ p).
Qed.

(** C1, as the code has it: for a count that is an integer.  Whatever the
    case mapping and the trimming are, on the paginated path, when the
    request's [count] coerces to an integer [c > 0] (or is not given, and
    [c] is 12): the data being paginated is a subsequence of the catalog in
    catalog order; the call for any page text that coerces to an integer
    [p >= 1] returns at most [c] items, with [ceil (totalCount / c)] as
    [pages]; and the items returned for pages [1 .. pages], one after the
    other, are exactly that data. *)
Theorem getGoodsList_pages_partition lower strip db params g c :
  reaches_pagination params = true →
  (truthy (params !! "count") = true
   ∧ toNumber (text (params !! "count")) = Num c)
  ∨ (truthy (params !! "count") = false ∧ c = 12%Z) →
  (0 < c)%Z →
  sublist (filteredWith lower strip db params) (goods db)
  ∧ (∀ s p, toNumber s = Num p → (1 ≤ p)%Z →
       ∃ items,
         getGoodsListWith lower strip db (<["page":=s]> params) g
         = (inr (Page (PageResult.mk items (Num p)
                         (Num (Z.of_nat
                                 (page_count
                                    (length (filteredWith lower strip db params))
                                    c)))
                         (length (filteredWith lower strip db params)))), g)
         ∧ (length items ≤ Z.to_nat c)%nat)
  ∧ (∀ pageText : nat → string,
       (∀ q, (1 ≤ q ≤ page_count (length (filteredWith lower strip db params)) c)%nat →
             toNumber (pageText q) = Num (Z.of_nat q)) →
       concat ((fun q => goods_of
                  (fst (getGoodsListWith lower strip db
                          (<["page":=pageText q]> params) g)))
                 <$> seq 1 (page_count
                              (length (filteredWith lower strip db params)) c))
       = filteredWith lower strip db params).
Proof.
  intros Hreach Hcount%count_of_spec Hc.
  split; [apply filteredWith_sublist|]. split.
  - intros s p Hs Hp.
    exists (PageResult.goods
              (pagination (filteredWith lower strip db params) (Num p) (Num c))).
    split.
    + rewrite (getGoodsListWith_set_page _ _ _ _ _ _ p c) by (done || lia).
      rewrite <- (pagination_pages _ (Num p)) by done. done.
    + rewrite pagination_goods by done. rewrite length_take. lia.
  - intros pageText Htext.
    rewrite <- (pages_concat (filteredWith lower strip db params) c Hc) at 2.
    f_equal. apply list_fmap_ext. intros i q Hq.
    apply lookup_seq in Hq as [-> Hlt].
    rewrite (getGoodsListWith_set_page _ _ _ _ _ _ (Z.of_nat (1 + i)) c)
      by (done || lia || (apply Htext; lia)).
    done.
Qed.

Lemma getGoodsList_pages_partition_witness :
  concat ((fun q => goods_of
             (fst (getGoodsListWith toLowerCase trim db3
                     (<["page":=if Nat.eqb q 1 then "1" else "2"]> {["count" := "2"]})
                     rng0)))
            <$> seq 1 2)
  = goods db3.
Proof.
  destruct (getGoodsList_pages_partition toLowerCase trim db3
              {["count" := "2"]} rng0 2)
    as (_ & _ & H); [reflexivity | left; split; reflexivity | lia |].
  apply (H (fun q => if Nat.eqb q 1 then "1" else "2")).
  intros q Hq. change (page_count _ _) with 2%nat in Hq.
  destruct q as [|[|[|q]]]; [lia | reflexivity | reflexivity | lia].
Defined.

(** C1 as stated fails for a count that is not an integer: [count=2.5],
    which twice over is 5, makes page 2 the slice from 2.5 to 5, and that
    holds the three items at indices 2, 3 and 4. *)
Lemma fractional_count_overfills_page :
  mul (count_of {["count" := "2.5"; "page" := "2"]}) (Num 2) = Num 5
  ∧ fst (getGoodsList db13 {["count" := "2.5"; "page" := "2"]} rng0)
    = inr (Page (PageResult.mk (take 3 (drop 2 (goods db13)))
                   (Num 2) (Num 6) 13)).
Proof. vm_compute. done. Qed.

(** ** Pages out of range *)

Lemma pagination_beyond_empty (data : list Item) (p c : Z) :
  (Z.of_nat (length data) ≤ (p - 1) * c)%Z →
  PageResult.goods (pagination data (Num p) (Num c)) = [].
Proof.
  intros Hle. apply nil_length_inv.
  unfold pagination. cbn [PageResult.goods mul sub number_eqb].
  rewrite slice_length.
  destruct (Z.eqb_spec p 1) as [->|Hne]; unfold rel_index;
    repeat match goal with
           | |- context [(?z <? 0)%Z] => destruct (Z.ltb_spec z 0)
           end; lia.
Qed.

(** A negative page is cut relative to the end of the data: it is empty
    exactly when the data is no longer than [-p * c]. *)
Lemma pagination_negative_page (data : list Item) (p c : Z) :
  (p < 0)%Z → (0 < c)%Z →
  PageResult.goods (pagination data (Num p) (Num c)) = []
  ↔ (Z.of_nat (length data) ≤ - p * c)%Z.
Proof.
  intros Hp Hc.
  assert (c * p < 0)%Z as Hend by nia.
  assert (length (PageResult.goods (pagination data (Num p) (Num c))) = 0%nat
          ↔ (Z.of_nat (length data) ≤ - p * c)%Z) as Hlen.
  { unfold pagination. cbn [PageResult.goods mul sub number_eqb].
    rewrite slice_length.
    destruct (Z.eqb_spec p 1) as [->|Hne]; [lia|]. unfold rel_index.
    repeat match goal with
           | |- context [(?z <? 0)%Z] => destruct (Z.ltb_spec z 0)
           end; lia. }
  rewrite <- Hlen. split.
  - by intros ->.
  - apply nil_length_inv.
Qed.

Lemma page_of_spec params s p :
  params !! "page" = Some s → toNumber s = Num p → p ≠ 0%Z →
  page_of params = Num p.
Proof. unfold page_of. intros -> -> Hp. by destruct p. Qed.

(** C8, as the code has it.  Whatever the case mapping and the trimming
    are, on the paginated path the call always returns a page result,
    never an error.  When the request's [page] coerces to an integer [p]
    other than 0 and its [count] to an integer [c] (12 when not given), the
    items are empty whenever [(p - 1) * c >= totalCount]; a negative page
    with [c > 0] is empty exactly when [totalCount <= -p * c]. *)
Theorem getGoodsList_page_out_of_range lower strip db params g :
  reaches_pagination params = true →
  ∃ r, getGoodsListWith lower strip db params g = (inr (Page r), g)
       ∧ PageResult.totalCount r = length (filteredWith lower strip db params)
       ∧ ∀ s p c,
           params !! "page" = Some s → toNumber s = Num p → p ≠ 0%Z →
           (truthy (params !! "count") = true
            ∧ toNumber (text (params !! "count")) = Num c)
           ∨ (truthy (params !! "count") = false ∧ c = 12%Z) →
           ((Z.of_nat (PageResult.totalCount r) ≤ (p - 1) * c)%Z →
              PageResult.goods r = [])
           ∧ ((p < 0)%Z → (0 < c)%Z →
                PageResult.goods r = []
                ↔ (Z.of_nat (PageResult.totalCount r) ≤ - p * c)%Z).
Proof.
  intros Hreach.
  exists (pagination (filteredWith lower strip db params)
            (page_of params) (count_of params)).
  split; [by apply getGoodsListWith_page|]. split; [done|].
  intros s p c Hs Hnum Hp Hcount%count_of_spec.
  rewrite (page_of_spec params s p), Hcount by done. split.
  - apply pagination_beyond_empty.
  - apply pagination_negative_page.
Qed.

Lemma getGoodsList_page_out_of_range_witness :
  ∃ r, getGoodsListWith toLowerCase trim db3 {["page" := "2"]} rng0
       = (inr (Page r), rng0)
       ∧ PageResult.goods r = [].
Proof.
  destruct (getGoodsList_page_out_of_range toLowerCase trim db3
              {["page" := "2"]} rng0)
    as (r & Hr & Htotal & Hrange); [reflexivity|].
  exists r. split; [exact Hr|].
  destruct (Hrange "2" 2%Z 12%Z) as [Hempty _];
    [reflexivity | reflexivity | discriminate | right; split; reflexivity |].
  apply Hempty. rewrite Htotal. vm_compute. discriminate.
Defined.

(** C8 as stated fails for a negative page: page [-1] of thirteen items,
    twelve to a page, is cut as [slice(-24, -12)] and holds the first
    item. *)
Lemma negative_page_returns_items :
  page_of {["page" := "-1"]} = Num (-1)
  ∧ count_of {["page" := "-1"]} = Num 12
  ∧ fst (getGoodsList db13 {["page" := "-1"]} rng0)
    = inr (Page (PageResult.mk (take 1 (goods db13)) (Num (-1)) (Num 2) 13)).
Proof. vm_compute. done. Qed.

(** ** The guard on [category] *)

(** C2, as the code has it.  When [top] is not set (or empty), [category]
    is set to a non-empty value and [gender] is not set (or empty), the
    call fails with the 403 error, whatever the other parameters are. *)
Theorem category_without_gender_fails db params g :
  truthy (params !! "top") = false →
  truthy (params !! "category") = true →
  truthy (params !! "gender") = false →
  getGoodsList db params g
  = (inl {| statusCode := 403;
            data := JObject [("message", JString "Not gender params")] |}, g).
Proof.
  intros Htop Hcat Hgen. apply getGoodsList_403; [done|].
  unfold category_without_gender. by rewrite Hcat, Hgen.
Qed.

Lemma category_without_gender_fails_witness :
  getGoodsList db3 {["category" := "dress"; "search" := "shirt"; "list" := "1"]} rng0
  = (inl {| statusCode := 403;
            data := JObject [("message", JString "Not gender params")] |}, rng0).
Proof.
  apply (category_without_gender_fails db3
           {["category" := "dress"; "search" := "shirt"; "list" := "1"]} rng0);
    reflexivity.
Defined.

(** C2 as stated fails when [top] is set: the [top] branch returns before
    the guard is reached. *)
Lemma category_without_gender_under_top :
  ({["category" := "dress"; "top" := "women"]} : gmap string string) !! "category"
  = Some "dress"
  ∧ ({["category" := "dress"; "top" := "women"]} : gmap string string) !! "gender"
    = None
  ∧ fst (getGoodsList db3 {["category" := "dress"; "top" := "women"]} rng0)
    = inr (Raw [Some (sample "1" "women" "dress" true);
                None; None; None; None; None; None; None]).
Proof. vm_compute. done. Qed.

(** ** Search and list *)

Lemma truthy_Some (s : string) : s ≠ EmptyString → truthy (Some s) = true.
Proof.
  intros Hs. unfold truthy. apply negb_true_iff.
  by apply String.eqb_neq.
Qed.

Lemma filter_elem_of {A} (f : A → bool) (l : list A) (x : A) :
  x ∈ List.filter f l ↔ x ∈ l ∧ f x = true.
Proof. rewrite !list_elem_of_In. apply filter_In. Qed.

(** C3, as the code has it.  Whatever the case mapping [lower] and the
    trimming [strip] of the language are: when [search] is set to a
    non-empty value, [top] and [list] are not set (or empty) and the guard
    on [category] does not fire, the result is the pagination of the
    catalog items whose lower-cased title or description contains the
    trimmed, lower-cased search text; gender, category and type play no
    part in it. *)
Theorem search_overrides_narrowing lower strip db params g s :
  params !! "search" = Some s →
  s ≠ EmptyString →
  truthy (params !! "top") = false →
  truthy (params !! "list") = false →
  category_without_gender params = false →
  getGoodsListWith lower strip db params g
  = (inr (Page (pagination
                  (List.filter (matches_search_with lower (lower (strip s)))
                     (goods db))
                  (page_of params) (count_of params))), g)
  ∧ ∀ item,
      item ∈ List.filter (matches_search_with lower (lower (strip s))) (goods db)
      ↔ item ∈ goods db
        ∧ ((∃ pre post,
              lower (title item) = pre ++ lower (strip s) ++ post)
           ∨ (∃ pre post,
                lower (description item) = pre ++ lower (strip s) ++ post)).
Proof.
  intros Hs Hne Htop Hlist Hguard. split.
  - rewrite getGoodsListWith_page.
    + unfold filteredWith. rewrite Hs, truthy_Some by done. done.
    + unfold reaches_pagination. by rewrite Htop, Hlist, Hguard.
  - intros item. rewrite filter_elem_of. unfold matches_search_with.
    by rewrite orb_true_iff, !includes_spec.
Qed.

Lemma search_overrides_narrowing_witness :
  getGoodsListWith toLowerCase trim db3
    {["search" := " SHIRT 2 "; "gender" := "women"; "type" := "none"]} rng0
  = (inr (Page (PageResult.mk [sample "2" "men" "dress" true] (Num 1) (Num 1) 1)),
     rng0).
Proof.
  destruct (search_overrides_narrowing toLowerCase trim db3
              {["search" := " SHIRT 2 "; "gender" := "women"; "type" := "none"]}
              rng0 " SHIRT 2 ") as [H _];
    [reflexivity | discriminate | reflexivity | reflexivity | reflexivity |].
  exact H.
Defined.

(** C3 as stated fails in two ways: with [category] set and [gender] not,
    the guard throws before the search is looked at; with [list] set, the
    identifier list is returned instead, unpaginated. *)
Lemma search_does_not_override_guard_or_list :
  fst (getGoodsList db3 {["search" := "shirt"; "category" := "dress"]} rng0)
  = inl error403
  ∧ fst (getGoodsList db3 {["search" := "shirt 1"; "list" := "3"]} rng0)
    = inr (Raw [Some (sample "3" "women" "socks" false)]).
Proof. vm_compute. done. Qed.

(** C4, as the code has it.  Whatever the case mapping [lower] and the
    trimming [strip] of the language are: when [list] is set to a
    non-empty value, [top] is not set (or empty) and the guard on
    [category] does not fire, the result is the raw array of the catalog
    items whose identifier occurs as a substring of the trimmed,
    lower-cased list text, in catalog order; gender, category, type,
    search, page and count play no part in it. *)
Theorem list_returns_contained_ids lower strip db params g s :
  params !! "list" = Some s →
  s ≠ EmptyString →
  truthy (params !! "top") = false →
  category_without_gender params = false →
  getGoodsListWith lower strip db params g
  = (inr (Raw (Some <$> List.filter
                 (fun item => includes (lower (strip s)) (id item))
                 (goods db))), g)
  ∧ sublist (List.filter (fun item => includes (lower (strip s)) (id item))
               (goods db))
      (goods db)
  ∧ ∀ item,
      item ∈ List.filter (fun item => includes (lower (strip s)) (id item))
               (goods db)
      ↔ item ∈ goods db
        ∧ ∃ pre post, lower (strip s) = pre ++ id item ++ post.
Proof.
  intros Hs Hne Htop Hguard. split; [|split].
  - rewrite getGoodsListWith_list; try done.
    + by rewrite Hs.
    + rewrite Hs. by apply truthy_Some.
  - apply filter_sublist.
  - intros item. by rewrite filter_elem_of, includes_spec.
Qed.

Lemma list_returns_contained_ids_witness :
  getGoodsListWith toLowerCase trim db3
    {["list" := "13"; "gender" := "men"; "search" := "none"]} rng0
  = (inr (Raw [Some (sample "1" "women" "dress" true);
               Some (sample "3" "women" "socks" false)]), rng0).
Proof.
  destruct (list_returns_contained_ids toLowerCase trim db3
              {["list" := "13"; "gender" := "men"; "search" := "none"]}
              rng0 "13") as [H _];
    [reflexivity | discriminate | reflexivity | reflexivity |].
  exact H.
Defined.

(** C4 as stated fails when [category] is set and [gender] is not: the
    guard throws before the list is looked at. *)
Lemma list_does_not_bypass_guard :
  fst (getGoodsList db3 {["list" := "1"; "category" := "dress"]} rng0)
  = inl error403.
Proof. vm_compute. done. Qed.

(** ** Determinism away from [top] *)

(** C10.  When [top] is not set (or empty) the result does not depend on
    the random generator, and no draw is consumed. *)
Theorem getGoodsList_deterministic db params g1 g2 :
  truthy (params !! "top") = false →
  fst (getGoodsList db params g1) = fst (getGoodsList db params g2)
  ∧ snd (getGoodsList db params g1) = g1.
Proof.
  intros Htop. unfold getGoodsList. rewrite Htop.
  destruct (truthy (params !! "category")), (truthy (params !! "gender")),
    (truthy (params !! "list")); done.
Qed.

Lemma getGoodsList_deterministic_witness :
  fst (getGoodsList db3 {["gender" := "women"]} rng0)
  = fst (getGoodsList db3 {["gender" := "women"]}
           {| tape := fun _ => 7%N; calls := 3 |})
  ∧ snd (getGoodsList db3 {["gender" := "women"]} rng0) = rng0.
Proof.
  apply (getGoodsList_deterministic db3 {["gender" := "women"]}). reflexivity.
Defined.

(** ** shuffle permutes *)

Lemma replace_Permutation {A} (l : list A) (j : nat) (x y : A) :
  l !! j = Some y → y :: <[j:=x]> l ≡ₚ x :: l.
Proof.
  revert j. induction l as [|z l IH]; intros [|j] Hj; simplify_eq/=.
  - apply perm_swap.
  - rewrite (perm_swap z y), (IH j Hj). apply perm_swap.
Qed.

Lemma swap_Permutation {A} (a : list A) (i j : nat) : swap a i j ≡ₚ a.
Proof.
  unfold swap.
  destruct (a !! i) as [x|] eqn:Hi; [|done].
  destruct (a !! j) as [y|] eqn:Hj; [|done].
  revert i j Hi Hj.
  induction a as [|z a IH]; intros [|i] [|j] Hi Hj; simplify_eq/=.
  - done.
  - by apply replace_Permutation.
  - by apply replace_Permutation.
  - by rewrite IH.
Qed.

Lemma shuffle_from_Permutation {A} (i : nat) (a : list A) (g : Rng) :
  fst (shuffle_from i a g) ≡ₚ a.
Proof.
  revert a g. induction i as [|i IH]; intros a g; [done|].
  cbn [shuffle_from]. unfold bind at 1.
  destruct (random_below (S (S i)) g) as [j g'].
  rewrite IH. apply swap_Permutation.
Qed.

Lemma shuffle_Permutation {A} (array : list A) (g : Rng) :
  fst (shuffle array g) ≡ₚ array.
Proof. apply shuffle_from_Permutation. Qed.

(** ** shuffle reaches every ordering *)

Lemma draw_for (n j : N) :
  (j < n)%N → (n ≤ precision)%N →
  ∃ k, (k < precision)%N ∧ (k * n / precision = j)%N.
Proof.
  intros Hj Hn. unfold precision in *.
  set (P := (2 ^ 53)%N) in *.
  assert (0 < P)%N as HP by (subst P; reflexivity).
  clearbody P.
  exists ((j * P + n - 1) / n)%N.
  pose proof (N.div_mod (j * P + n - 1) n ltac:(lia)) as Hdm.
  pose proof (N.mod_lt (j * P + n - 1) n ltac:(lia)) as Hmod.
  set (k := ((j * P + n - 1) / n)%N) in *.
  set (r := ((j * P + n - 1) mod n)%N) in *.
  clearbody k r.
  split.
  - nia.
  - symmetry. apply (N.div_unique _ _ _ (k * n - j * P)%N); nia.
Qed.

Lemma random_below_chosen (n : nat) (g : Rng) (k : N) (j : nat) :
  tape g (calls g) = k → (k < precision)%N →
  (k * N.of_nat n / precision)%N = N.of_nat j →
  random_below n g = (j, {| tape := tape g; calls := S (calls g) |}).
Proof.
  intros Htape Hk Hj. unfold random_below, bind, Math_random, ret.
  rewrite Htape, (N.mod_small k precision) by done.
  by rewrite Hj, Nat2N.id.
Qed.

Lemma swap_app_l {A} (pre suf : list A) (i j : nat) :
  (i < length pre)%nat → (j < length pre)%nat →
  swap (pre ++ suf)%list i j = (swap pre i j ++ suf)%list.
Proof.
  intros Hi Hj. unfold swap.
  rewrite !lookup_app_l by done.
  destruct (lookup_lt_is_Some_2 pre i Hi) as [x ->].
  destruct (lookup_lt_is_Some_2 pre j Hj) as [y ->].
  rewrite insert_app_l by done.
  by rewrite insert_app_l by by rewrite length_insert.
Qed.

Lemma swap_last {A} (pre : list A) (i j : nat) (x : A) :
  length pre = S i → pre !! j = Some x →
  ∃ pre2, swap pre i j = (pre2 ++ [x])%list ∧ length pre2 = i.
Proof.
  intros Hlen Hj.
  assert (j < length pre)%nat as Hjlt by by eapply lookup_lt_Some.
  destruct (lookup_lt_is_Some_2 pre i ltac:(lia)) as [y Hi].
  exists (take i (swap pre i j)).
  assert (length (swap pre i j) = S i) as Hswaplen.
  { by rewrite (Permutation_length (swap_Permutation pre i j)). }
  split; [|rewrite length_take; lia].
  assert (swap pre i j !! i = Some x) as Hlast.
  { unfold swap. rewrite Hi, Hj.
    destruct (decide (i = j)) as [->|Hne].
    - simplify_eq. rewrite list_lookup_insert_eq; [done|].
      rewrite length_insert. lia.
    - rewrite list_lookup_insert_ne by done.
      rewrite list_lookup_insert_eq; [done|lia]. }
  rewrite <- (take_drop i (swap pre i j)) at 1. f_equal.
  apply list_eq. intros [|t].
  - by rewrite lookup_drop, Nat.add_0_r.
  - rewrite lookup_drop. simpl.
    apply lookup_ge_None_2. lia.
Qed.

Lemma shuffle_from_reaches {A} (i : nat) :
  ∀ pre suf pre' : list A,
    length pre = S i → pre' ≡ₚ pre → (N.of_nat (S i) ≤ precision)%N →
    ∃ ks : list N,
      ∀ g, (∀ t k, ks !! t = Some k → tape g (calls g + t) = k) →
           fst (shuffle_from i (pre ++ suf)%list g) = (pre' ++ suf)%list.
Proof.
  induction i as [|i IH]; intros pre suf pre' Hlen Hperm Hbound.
  - exists []. intros g _. simpl.
    destruct pre as [|x [|? ?]]; try done.
    by apply Permutation_singleton_r in Hperm as ->.
  - assert (length pre' = S (S i)) as Hlen' by by rewrite Hperm.
    destruct (rev pre') as [|x q'] eqn:Hrev.
    { apply (f_equal length) in Hrev. rewrite length_rev in Hrev.
      simpl in Hrev. lia. }
    assert (pre' = (rev q' ++ [x])%list) as Hpre'.
    { rewrite <- (rev_involutive pre'), Hrev. done. }
    assert (x ∈ pre) as Hx.
    { rewrite <- Hperm, Hpre'. apply elem_of_app. right. by left. }
    apply list_elem_of_lookup in Hx as [j Hj].
    assert (j < S (S i))%nat as Hjlt.
    { rewrite <- Hlen. by eapply lookup_lt_Some. }
    destruct (draw_for (N.of_nat (S (S i))) (N.of_nat j)) as (k & Hk & Hdraw);
      [lia | done |].
    destruct (swap_last pre (S i) j x Hlen Hj) as (pre2 & Hswap & Hlen2).
    assert (rev q' ≡ₚ pre2) as Hperm2.
    { apply (Permutation_app_inv_r [x]).
      rewrite <- Hpre', <- Hswap, Hperm. symmetry. apply swap_Permutation. }
    destruct (IH pre2 (x :: suf) (rev q') Hlen2 Hperm2 ltac:(lia)) as [ks Hks].
    exists (k :: ks). intros g Htape.
    cbn [shuffle_from]. unfold bind at 1.
    rewrite (random_below_chosen (S (S i)) g k j); [..|done|done].
    2:{ rewrite <- (Htape 0%nat k eq_refl). f_equal. lia. }
    rewrite swap_app_l by lia. rewrite Hswap, <- app_assoc. simpl.
    rewrite Hks.
    + by rewrite Hpre', <- app_assoc.
    + intros t k' Ht. simpl. rewrite <- (Htape (S t) k' Ht). f_equal. lia.
Qed.

Lemma shuffle_reaches {A} (array target : list A) :
  target ≡ₚ array → (N.of_nat (length array) ≤ precision)%N →
  ∃ g, fst (shuffle array g) = target.
Proof.
  intros Hperm Hbound. unfold shuffle.
  destruct array as [|x array].
  { apply Permutation_nil_r in Hperm as ->.
    by exists {| tape := fun _ => 0%N; calls := 0 |}. }
  destruct (shuffle_from_reaches (length array) (x :: array) [] target)
    as [ks Hks]; [done | done | done |].
  exists {| tape := fun t => default 0%N (ks !! t); calls := 0 |}.
  simpl. rewrite Nat.sub_0_r.
  specialize (Hks {| tape := fun t => default 0%N (ks !! t); calls := 0 |}).
  rewrite !app_nil_r in Hks. apply Hks.
  intros t k Ht. simpl. by rewrite Ht.
Qed.

(** ** The [top] branch *)

Lemma top_matches_spec db params item :
  item ∈ top_matches db params
  ↔ item ∈ goods db ∧ top item = true ∧ gender item = text (params !! "top").
Proof.
  unfold top_matches, is_top.
  by rewrite filter_elem_of, andb_true_iff, String.eqb_eq.
Qed.

Lemma set_length_length {A} (n : nat) (a : list (option A)) :
  length (set_length n a) = n.
Proof.
  unfold set_length. rewrite length_app, length_take, length_replicate. lia.
Qed.

(** C5.  When [top] is set to a non-empty value, the result is the raw
    array obtained from the Fisher-Yates shuffle of the catalog items whose
    [top] flag is set and whose gender equals the parameter, with its
    length set to eight.  The shuffled array is a permutation of those
    items, and every ordering of them is the outcome of some draws (for
    arrays of up to 2^53 entries): the order is not fixed.  When eight or
    more items match, the array is the first eight entries of the
    permutation: eight items, each of them a matching catalog item. *)
Theorem top_returns_eight_shuffled db params g :
  truthy (params !! "top") = true →
  ∃ shuffled g',
    shuffle (top_matches db params) g = (shuffled, g')
    ∧ getGoodsList db params g
      = (inr (Raw (set_length 8 (Some <$> shuffled))), g')
    ∧ shuffled ≡ₚ top_matches db params
    ∧ (∀ item, item ∈ top_matches db params
               ↔ item ∈ goods db ∧ top item = true
                 ∧ gender item = text (params !! "top"))
    ∧ ((8 ≤ length (top_matches db params))%nat →
         set_length 8 (Some <$> shuffled) = Some <$> take 8 shuffled
         ∧ length (set_length 8 (Some <$> shuffled)) = 8%nat
         ∧ ∀ slot, slot ∈ set_length 8 (Some <$> shuffled) →
             ∃ item, slot = Some item ∧ item ∈ top_matches db params)
    ∧ ((N.of_nat (length (top_matches db params)) ≤ 2 ^ 53)%N →
         ∀ order, order ≡ₚ top_matches db params →
           ∃ draws,
             getGoodsList db params draws
             = (inr (Raw (set_length 8 (Some <$> order))),
                snd (shuffle (top_matches db params) draws))).
Proof.
  intros Htop.
  pose proof (shuffle_Permutation (top_matches db params) g) as Hperm.
  rewrite getGoodsList_top by done.
  destruct (shuffle (top_matches db params) g) as [shuffled g'].
  simpl in Hperm. exists shuffled, g'.
  split; [done|]. split; [done|]. split; [done|].
  split; [apply top_matches_spec|]. split.
  - intros Hlen.
    assert (set_length 8 (Some <$> shuffled) = Some <$> take 8 shuffled) as Heq.
    { unfold set_length. rewrite length_fmap, (Permutation_length Hperm).
      replace (8 - length (top_matches db params))%nat with 0%nat by lia.
      simpl. by rewrite app_nil_r, fmap_take. }
    split; [done|]. split; [apply set_length_length|].
    intros slot. rewrite Heq. intros (item & -> & Hitem)%list_elem_of_fmap.
    exists item. split; [done|].
    rewrite <- Hperm. by apply (subseteq_take 8 shuffled).
  - intros Hbound order Horder.
    destruct (shuffle_reaches (top_matches db params) order Horder Hbound)
      as [draws Hdraws].
    exists draws. rewrite getGoodsList_top by done.
    destruct (shuffle (top_matches db params) draws) as [result g2].
    simpl in Hdraws. by rewrite Hdraws.
Qed.

Lemma top_returns_eight_shuffled_witness :
  ∃ shuffled g',
    getGoodsList db13 {["top" := "women"]} rng0
    = (inr (Raw (Some <$> take 8 shuffled)), g')
    ∧ shuffled ≡ₚ goods db13.
Proof.
  destruct (top_returns_eight_shuffled db13 {["top" := "women"]} rng0)
    as (shuffled & g' & _ & Hcall & Hperm & _ & Height & _); [reflexivity|].
  destruct Height as (Heq & _); [vm_compute; lia|].
  exists shuffled, g'. split.
  - by rewrite <- Heq.
  - exact Hperm.
Defined.

(** C9.  When [top] is set to a non-empty value and fewer than eight items
    match, the call does not fail: it returns an array of length eight
    whose leading entries are the matching items in some order and whose
    every further position is a hole, written [null] by
    [JSON.stringify]. *)
Theorem top_with_few_matches_pads db params g :
  truthy (params !! "top") = true →
  (length (top_matches db params) < 8)%nat →
  ∃ items g',
    getGoodsList db params g = (inr (Raw items), g')
    ∧ length items = 8%nat
    ∧ (∀ i, (i < length (top_matches db params))%nat →
            ∃ item, items !! i = Some (Some item)
                    ∧ item ∈ top_matches db params)
    ∧ (∀ i, (length (top_matches db params) ≤ i < 8)%nat →
            items !! i = Some None)
    ∧ ∃ slots, json_of_goods (Raw items) = JArray slots
               ∧ ∀ i, (length (top_matches db params) ≤ i < 8)%nat →
                      slots !! i = Some JNull.
Proof.
  intros Htop Hlen.
  pose proof (shuffle_Permutation (top_matches db params) g) as Hperm.
  rewrite getGoodsList_top by done.
  destruct (shuffle (top_matches db params) g) as [shuffled g'].
  simpl in Hperm.
  assert (length shuffled = length (top_matches db params)) as Hsame
    by apply (Permutation_length Hperm).
  assert (set_length 8 (Some <$> shuffled)
          = ((Some <$> shuffled)
               ++ replicate (8 - length (top_matches db params)) None)%list)
    as Heq.
  { unfold set_length. rewrite length_fmap, Hsame.
    by rewrite take_ge by (rewrite length_fmap; lia). }
  assert (∀ i, (length (top_matches db params) ≤ i < 8)%nat →
            set_length 8 (Some <$> shuffled) !! i = Some None) as Hholes.
  { intros i Hi. rewrite Heq.
    rewrite lookup_app_r by (rewrite length_fmap; lia).
    apply lookup_replicate_2. rewrite length_fmap. lia. }
  exists (set_length 8 (Some <$> shuffled)), g'.
  split; [done|]. split; [apply set_length_length|]. split; [|split; [done|]].
  - intros i Hi. rewrite Heq.
    rewrite lookup_app_l by (rewrite length_fmap; lia).
    destruct (lookup_lt_is_Some_2 shuffled i) as [item Hitem]; [lia|].
    exists item. rewrite list_lookup_fmap, Hitem. split; [done|].
    rewrite <- Hperm. by eapply list_elem_of_lookup_2.
  - eexists. split; [done|].
    intros i Hi. by rewrite list_lookup_fmap, Hholes.
Qed.

Lemma top_with_few_matches_pads_witness :
  ∃ items g',
    getGoodsList db3 {["top" := "women"]} rng0 = (inr (Raw items), g')
    ∧ length items = 8%nat
    ∧ items !! 1%nat = Some None
    ∧ items !! 7%nat = Some None.
Proof.
  destruct (top_with_few_matches_pads db3 {["top" := "women"]} rng0)
    as (items & g' & Hcall & Hlen & _ & Hholes & _);
    [reflexivity | vm_compute; lia |].
  exists items, g'. split; [exact Hcall|]. split; [exact Hlen|].
  split; apply Hholes; vm_compute; lia.
Defined.

(** ** getItems *)

Definition has_id (itemId : string) (item : Item) : bool :=
  String.eqb (id item) itemId.

(** [find] stops at the first item with the identifier. *)
Lemma find_id_first (l : list Item) (itemId : string) :
  match List.find (has_id itemId) l with
  | Some item =>
      ∃ before after, l = (before ++ item :: after)%list
                      ∧ id item = itemId
                      ∧ ∀ x, x ∈ before → id x ≠ itemId
  | None => ∀ x, x ∈ l → id x ≠ itemId
  end.
Proof.
  induction l as [|y l IH]; simpl.
  - intros x Hx. by apply elem_of_nil in Hx.
  - unfold has_id at 1. destruct (String.eqb_spec (id y) itemId) as [Heq|Hne].
    + exists [], l. split; [done|]. split; [done|].
      intros x Hx. by apply elem_of_nil in Hx.
    + destruct (List.find (has_id itemId) l) as [item|].
      * destruct IH as (before & after & -> & Hid & Hbefore).
        exists (y :: before), after. split; [done|]. split; [done|].
        intros x [->|Hx]%elem_of_cons; auto.
      * intros x [->|Hx]%elem_of_cons; auto.
Qed.

Lemma find_id_unique (l : list Item) (item : Item) :
  NoDup (id <$> l) → item ∈ l →
  List.find (has_id (id item)) l = Some item.
Proof.
  induction l as [|y l IH]; intros Hnodup Hin.
  - by apply elem_of_nil in Hin.
  - rewrite fmap_cons in Hnodup. apply NoDup_cons in Hnodup as [Hfresh Hnodup].
    simpl. unfold has_id at 1.
    apply elem_of_cons in Hin as [->|Hin].
    + by rewrite String.eqb_refl.
    + destruct (String.eqb_spec (id y) (id item)) as [Heq|Hne]; [|by apply IH].
      destruct Hfresh. rewrite Heq. by apply list_elem_of_fmap_2.
Qed.

(** C6.  If some catalog item has the identifier, [getItems] returns the
    first such item of the catalog, which is that very item when
    identifiers are unique; if none has it, [getItems] fails with the 404
    error carrying [{message: "Item Not Found"}]. *)
Theorem getItems_spec db itemId :
  ((∃ item, item ∈ goods db ∧ id item = itemId) →
     ∃ before item after,
       goods db = (before ++ item :: after)%list
       ∧ id item = itemId
       ∧ (∀ x, x ∈ before → id x ≠ itemId)
       ∧ getItems db itemId = inr item)
  ∧ (∀ item, NoDup (id <$> goods db) → item ∈ goods db → id item = itemId →
       getItems db itemId = inr item)
  ∧ ((∀ item, item ∈ goods db → id item ≠ itemId) →
       getItems db itemId
       = inl {| statusCode := 404;
                data := JObject [("message", JString "Item Not Found")] |}).
Proof.
  unfold getItems. change (fun item => String.eqb (id item) itemId)
    with (has_id itemId).
  split; [|split].
  - intros (item & Hin & Hid).
    pose proof (find_id_first (goods db) itemId) as Hfind.
    destruct (List.find (has_id itemId) (goods db)) as [found|].
    + destruct Hfind as (before & after & Hsplit & Hfound & Hbefore).
      by exists before, found, after.
    + by destruct (Hfind item Hin).
  - intros item Hnodup Hin <-. by rewrite find_id_unique.
  - intros Hnone.
    pose proof (find_id_first (goods db) itemId) as Hfind.
    destruct (List.find (has_id itemId) (goods db)) as [found|]; [|done].
    destruct Hfind as (before & after & Hsplit & Hfound & _).
    destruct (Hnone found); [|done].
    rewrite Hsplit. apply elem_of_app. right. by left.
Qed.

Lemma getItems_spec_witness :
  getItems db3 "2" = inr (sample "2" "men" "dress" true)
  ∧ getItems db3 "999"
    = inl {| statusCode := 404;
             data := JObject [("message", JString "Item Not Found")] |}.
Proof.
  destruct (getItems_spec db3 "2") as (_ & Hfound & _).
  destruct (getItems_spec db3 "999") as (_ & _ & Hmissing).
  split.
  - apply Hfound; [|by apply list_elem_of_In; vm_compute; auto|reflexivity].
    apply NoDup_ListNoDup. vm_compute.
    repeat (constructor; [simpl; intuition discriminate|]). constructor.
  - apply Hmissing. intros item Hin.
    apply list_elem_of_In in Hin. simpl in Hin.
    destruct Hin as [<-|[<-|[<-|[]]]]; discriminate.
Defined.

(** ** The handler and errors *)

(** Inside [try], an application error is answered with its own status
    and payload and anything else with 500. *)
Lemma respond_api_error (e : ApiError) :
  respond (inl (Api e)) = Sent (statusCode e) (Some (data e)).
Proof. done. Qed.

Lemma respond_unexpected (e : exn) :
  (∀ a, e ≠ Api a) →
  respond (inl e) = Sent 500 (Some (message "Server Error")).
Proof. intros Hne. destruct e as [a| |]; [by destruct (Hne a)|done|done]. Qed.

Lemma decodeURIComponent_lone_percent : decodeURIComponent "%" = None.
Proof. done. Qed.

(** C7 fails on the code.  The query string is decoded before [try] is
    entered, so the [URIError] that [decodeURIComponent] throws on a
    malformed escape is not caught: the handler's promise rejects and no
    response is written, where the claim has a 500 response. *)
Theorem handler_decode_error_unanswered db g :
  handler db {| method := "GET"; url := "/api/goods?search=%" |} g
  = (Uncaught URIError, g)
  ∧ fst (handler db {| method := "GET"; url := "/api/goods?search=%" |} g)
    ≠ Sent 500 (Some (message "Server Error")).
Proof. split; [reflexivity|discriminate]. Qed.

(** ** Draws stay in range *)

(** [Math.floor(Math.random() * n)] is an index below [n], so the two reads
    of [swap] inside [shuffle] are always in range. *)
Lemma random_below_lt (n : nat) (g : Rng) :
  (0 < n)%nat → (fst (random_below n g) < n)%nat.
Proof.
  intros Hn. unfold random_below, bind, Math_random, ret. simpl.
  pose proof (N.mod_lt (tape g (calls g)) precision ltac:(done)) as Hk.
  assert (tape g (calls g) mod precision * N.of_nat n / precision
          < N.of_nat n)%N; [|lia].
  apply N.Div0.div_lt_upper_bound. nia.
Qed.

Lemma shuffle_from_length {A} (i : nat) (a : list A) (g : Rng) :
  length (fst (shuffle_from i a g)) = length a.
Proof. apply Permutation_length, shuffle_from_Permutation. Qed.

(** The order of a [top] result does depend on the draws. *)
Example top_depends_on_draws :
  fst (getGoodsList db13 {["top" := "women"]} rng0)
  ≠ fst (getGoodsList db13 {["top" := "women"]}
           {| tape := fun _ => 0%N; calls := 0 |}).
Proof. vm_compute. discriminate. Qed.

(** ** The examples of the specification, through the handler *)

Example request_category_without_gender g :
  handler db3 {| method := "GET"; url := "/api/goods?category=dress" |} g
  = (Sent 403 (Some (message "Not gender params")), g).
Proof. reflexivity. Qed.

Example request_gender_and_category g :
  handler db3 {| method := "GET";
                 url := "/api/goods?gender=women&category=dress" |} g
  = (Sent 200
       (Some (JObject [("goods", JArray [JItem (sample "1" "women" "dress" true)]);
                       ("page", JNumber 1);
                       ("pages", JNumber 1);
                       ("totalCount", JNumber 1)])), g).
Proof. reflexivity. Qed.

Example request_missing_item g :
  handler db3 {| method := "GET"; url := "/api/goods/999" |} g
  = (Sent 404 (Some (message "Item Not Found")), g).
Proof. reflexivity. Qed.

Example request_encoded_search g :
  handler db3 {| method := "GET"; url := "/api/goods?search=SHIRT%203" |} g
  = (Sent 200
       (Some (JObject [("goods", JArray [JItem (sample "3" "women" "socks" false)]);
                       ("page", JNumber 1);
                       ("pages", JNumber 1);
                       ("totalCount", JNumber 1)])), g).
Proof. reflexivity. Qed.

(** * Further properties of the code *)

(** ** shuffle: what it consumes *)

Lemma random_below_state (n : nat) (g : Rng) :
  snd (random_below n g) = {| tape := tape g; calls := S (calls g) |}.
Proof. done. Qed.

Lemma shuffle_from_state {A} (i : nat) (a : list A) (g : Rng) :
  snd (shuffle_from i a g) = {| tape := tape g; calls := calls g + i |}.
Proof.
  revert a g. induction i as [|i IH]; intros a g.
  - simpl. destruct g as [t n]. simpl. f_equal. lia.
  - cbn [shuffle_from]. unfold bind at 1.
    pose proof (random_below_state (S (S i)) g) as Hstate.
    destruct (random_below (S (S i)) g) as [j g']. simpl in Hstate.
    rewrite IH, Hstate. simpl. f_equal. lia.
Qed.

(** The result of [shuffle] is a rearrangement of its argument, and the
    loop makes one draw for each index from the last down to 1: an array
    of length [n] costs [n - 1] draws, none when it has at most one
    entry. *)
Theorem shuffle_permutes_and_counts_draws {A} (array : list A) (g : Rng) :
  fst (shuffle array g) ≡ₚ array
  ∧ length (fst (shuffle array g)) = length array
  ∧ tape (snd (shuffle array g)) = tape g
  ∧ calls (snd (shuffle array g)) = (calls g + (length array - 1))%nat.
Proof.
  pose proof (shuffle_from_Permutation (length array - 1) array g) as Hperm.
  unfold shuffle. rewrite shuffle_from_state. simpl.
  split; [done|]. split; [by apply Permutation_length|]. done.
Qed.

(** ** pagination: the size of each page *)

Lemma page_count_Z (len : nat) (c : Z) :
  (0 < c)%Z → Z.of_nat (page_count len c) = (- (- Z.of_nat len / c))%Z.
Proof.
  intros Hc. unfold page_count.
  destruct (ceil_bounds len c Hc) as [H0 _]. lia.
Qed.

Lemma pagination_goods_length (data : list Item) (p c : Z) :
  (1 ≤ p)%Z → (0 < c)%Z →
  Z.of_nat (length (PageResult.goods (pagination data (Num p) (Num c))))
  = Z.max 0 (Z.min c (Z.of_nat (length data) - (p - 1) * c)).
Proof.
  intros Hp Hc. rewrite pagination_goods by done.
  rewrite length_take, length_drop. nia.
Qed.

(** With an integer page size [c > 0]: every page before the last holds
    exactly [c] items; the last page, number [ceil (len / c)], holds the
    remaining items, at least one; every later page is empty. *)
Theorem pagination_page_sizes (data : list Item) (p c : Z) :
  (1 ≤ p)%Z → (0 < c)%Z →
  ((p < Z.of_nat (page_count (length data) c))%Z →
     Z.of_nat (length (PageResult.goods (pagination data (Num p) (Num c)))) = c)
  ∧ (p = Z.of_nat (page_count (length data) c) →
       Z.of_nat (length (PageResult.goods (pagination data (Num p) (Num c))))
       = (Z.of_nat (length data) - (p - 1) * c)%Z
       ∧ (1 ≤ length (PageResult.goods (pagination data (Num p) (Num c))))%nat)
  ∧ ((Z.of_nat (page_count (length data) c) < p)%Z →
       PageResult.goods (pagination data (Num p) (Num c)) = []).
Proof.
  intros Hp Hc.
  pose proof (pagination_goods_length data p c Hp Hc) as Hlen.
  pose proof (page_count_Z (length data) c Hc) as Hpages.
  destruct (ceil_bounds (length data) c Hc) as (H0 & Hle & Hlt).
  rewrite <- Hpages in H0, Hle, Hlt.
  split; [|split].
  - intros Hbefore. nia.
  - intros ->. nia.
  - intros Hafter. apply nil_length_inv. nia.
Qed.

Lemma pagination_page_sizes_witness :
  length (PageResult.goods (pagination (goods db13) (Num 1) (Num 5))) = 5%nat
  ∧ length (PageResult.goods (pagination (goods db13) (Num 3) (Num 5))) = 3%nat
  ∧ PageResult.goods (pagination (goods db13) (Num 4) (Num 5)) = [].
Proof.
  destruct (pagination_page_sizes (goods db13) 1 5) as (Hfull & _ & _);
    [lia | lia |].
  destruct (pagination_page_sizes (goods db13) 3 5) as (_ & Hlast & _);
    [lia | lia |].
  destruct (pagination_page_sizes (goods db13) 4 5) as (_ & _ & Hafter);
    [lia | lia |].
  split; [|split].
  - apply Nat2Z.inj. apply Hfull. vm_compute. reflexivity.
  - apply Nat2Z.inj. apply Hlast. vm_compute. reflexivity.
  - apply Hafter. vm_compute. reflexivity.
Defined.

(** ** pagination: page sizes that are not positive integers *)

Lemma slice_from_start_empty {A} (l : list A) (a b : number) :
  rel_index (length l) b = 0%nat → slice l a b = [].
Proof. intros Hb. unfold slice. rewrite Hb. by destruct (rel_index _ a). Qed.

Lemma pagination_degenerate_count (data : list Item) (page c : number) :
  c = NaN ∨ c = Num 0 →
  PageResult.goods (pagination data page c) = []
  ∧ json_of_number (PageResult.pages (pagination data page c)) = JNull.
Proof.
  intros [->| ->]; unfold pagination; cbn [PageResult.goods PageResult.pages].
  - split; [|done]. apply slice_from_start_empty. by destruct page.
  - split.
    + apply slice_from_start_empty. destruct page as [| | |p|s m e]; try done.
      * change (mul (Num 0) (Num p)) with (Num 0).
        by rewrite rel_index_nonneg.
      * replace (mul (Num 0) (Frac s m e)) with (Num 0) by reflexivity.
        by rewrite rel_index_nonneg.
    + simpl. by destruct (Nat.eqb _ _).
Qed.

(** A [count] that coerces to no number at all or to zero does not fail:
    whatever the case mapping and the trimming are, every page comes back
    empty, [totalCount] still counts the filtered data, and [pages] is not
    a finite number, which the response writes as [null]. *)
Theorem getGoodsList_degenerate_count lower strip db params g :
  reaches_pagination params = true →
  truthy (params !! "count") = true →
  toNumber (text (params !! "count")) = NaN
  ∨ toNumber (text (params !! "count")) = Num 0 →
  ∃ r, getGoodsListWith lower strip db params g = (inr (Page r), g)
       ∧ PageResult.goods r = []
       ∧ PageResult.totalCount r = length (filteredWith lower strip db params)
       ∧ json_of_number (PageResult.pages r) = JNull.
Proof.
  intros Hreach Htruthy Hcount.
  exists (pagination (filteredWith lower strip db params)
            (page_of params) (count_of params)).
  split; [by apply getGoodsListWith_page|].
  assert (count_of params = NaN ∨ count_of params = Num 0) as Hdegenerate.
  { unfold count_of. by rewrite Htruthy. }
  destruct (pagination_degenerate_count (filteredWith lower strip db params)
              (page_of params) (count_of params) Hdegenerate)
    as [Hgoods Hpages].
  done.
Qed.

Lemma getGoodsList_degenerate_count_witness :
  ∃ r, getGoodsListWith toLowerCase trim db3
         {["count" := "ten"; "page" := "2"]} rng0
       = (inr (Page r), rng0)
       ∧ PageResult.goods r = []
       ∧ PageResult.totalCount r = 3%nat
       ∧ json_of_number (PageResult.pages r) = JNull.
Proof.
  destruct (getGoodsList_degenerate_count toLowerCase trim db3
              {["count" := "ten"; "page" := "2"]} rng0)
    as (r & Hcall & Hgoods & Htotal & Hpages);
    [reflexivity | reflexivity | left; reflexivity |].
  exists r. split; [exact Hcall|]. split; [exact Hgoods|].
  split; [rewrite Htotal; reflexivity | exact Hpages].
Defined.

(** With a [count] that coerces to infinity ([count=Infinity], or digits
    past the largest double) the window never closes: whatever the case
    mapping and the trimming are, every page that coerces to an integer
    [p >= 1] returns the whole filtered data, and [pages] is [0]. *)
Theorem getGoodsList_infinite_count lower strip db params g s p :
  reaches_pagination params = true →
  truthy (params !! "count") = true →
  toNumber (text (params !! "count")) = PInf →
  params !! "page" = Some s →
  toNumber s = Num p →
  (1 ≤ p)%Z →
  getGoodsListWith lower strip db params g
  = (inr (Page (PageResult.mk (filteredWith lower strip db params) (Num p)
                  (Num 0) (length (filteredWith lower strip db params)))), g).
Proof.
  intros Hreach Htruthy Hcount Hs Hnum Hp.
  assert (count_of params = PInf) as Hinf.
  { unfold count_of. by rewrite Htruthy. }
  rewrite getGoodsListWith_page, Hinf, (page_of_spec params s p)
    by (done || lia).
  unfold pagination. cbn [ceil_div].
  assert (mul PInf (Num p) = PInf) as ->.
  { simpl. destruct (Z.eqb_spec p 0); [lia|].
    by destruct (Z.ltb_spec 0 p); [|lia]. }
  assert (rel_index (length (filteredWith lower strip db params))
            (if number_eqb (Num p) (Num 1) then Num 0 else sub PInf PInf)
          = 0%nat) as Hstart.
  { destruct (number_eqb _ _); [|done]. by rewrite rel_index_nonneg. }
  unfold slice. rewrite Hstart. simpl. by rewrite Nat.sub_0_r, firstn_all.
Qed.

Lemma getGoodsList_infinite_count_witness :
  getGoodsListWith toLowerCase trim db3
    {["count" := "1e999"; "page" := "7"]} rng0
  = (inr (Page (PageResult.mk (goods db3) (Num 7) (Num 0) 3)), rng0).
Proof.
  rewrite (getGoodsList_infinite_count toLowerCase trim db3
             {["count" := "1e999"; "page" := "7"]} rng0 "7" 7);
    [reflexivity | reflexivity | reflexivity | reflexivity | reflexivity
    | reflexivity | lia].
Defined.

(** ** What [getGoodsList] reads of its parameters *)

(** The property names [getGoodsList] reads. *)
Definition query_keys : list string :=
  ["page"; "count"; "top"; "gender"; "category"; "type"; "search"; "list"].

(** Two parameter objects the body of [getGoodsList] cannot tell apart. *)
Definition same_query (p1 p2 : gmap string string) : Prop :=
  page_of p1 = page_of p2
  ∧ count_of p1 = count_of p2
  ∧ text (p1 !! "top") = text (p2 !! "top")
  ∧ text (p1 !! "gender") = text (p2 !! "gender")
  ∧ text (p1 !! "category") = text (p2 !! "category")
  ∧ text (p1 !! "type") = text (p2 !! "type")
  ∧ truthy (p1 !! "search") = truthy (p2 !! "search")
  ∧ search_of p1 = search_of p2
  ∧ truthy (p1 !! "list") = truthy (p2 !! "list")
  ∧ list_of p1 = list_of p2.

Lemma truthy_text (v : option string) :
  truthy v = negb (String.eqb (text v) EmptyString).
Proof. by destruct v. Qed.

Lemma page_of_text (params : gmap string string) :
  page_of params
  = if truthy_number (toNumber (text (params !! "page")))
    then toNumber (text (params !! "page")) else Num 1.
Proof. unfold page_of. by destruct (params !! "page"). Qed.

Lemma getGoodsList_same_query db p1 p2 :
  same_query p1 p2 → getGoodsList db p1 = getGoodsList db p2.
Proof.
  intros (Hpage & Hcount & Htop & Hgender & Hcategory & Htype
          & Hsearch & Hsearch_of & Hlist & Hlist_of).
  unfold getGoodsList, by_gender, by_category, by_type.
  change (toLowerCase (trim (text (p1 !! "search")))) with (search_of p1).
  change (toLowerCase (trim (text (p2 !! "search")))) with (search_of p2).
  change (toLowerCase (trim (text (p1 !! "list")))) with (list_of p1).
  change (toLowerCase (trim (text (p2 !! "list")))) with (list_of p2).
  rewrite (truthy_text (p1 !! "top")), (truthy_text (p1 !! "gender")),
    (truthy_text (p1 !! "category")), (truthy_text (p1 !! "type")).
  rewrite (truthy_text (p2 !! "top")), (truthy_text (p2 !! "gender")),
    (truthy_text (p2 !! "category")), (truthy_text (p2 !! "type")).
  by rewrite Hpage, Hcount, Htop, Hgender, Hcategory, Htype,
    Hsearch, Hsearch_of, Hlist, Hlist_of.
Qed.

Lemma same_query_intro (p1 p2 : gmap string string) :
  page_of p1 = page_of p2 →
  (∀ key, key ∈ query_keys → key ≠ "page" →
          text (p1 !! key) = text (p2 !! key)) →
  same_query p1 p2.
Proof.
  intros Hpage Htext.
  assert (∀ key, key ∈ query_keys → key ≠ "page" →
            truthy (p1 !! key) = truthy (p2 !! key)) as Htruthy.
  { intros key Hin Hne. by rewrite !truthy_text, Htext. }
  unfold same_query, count_of, search_of, list_of.
  rewrite (Htruthy "count"), (Htext "count"), (Htext "top"), (Htext "gender"),
    (Htext "category"), (Htext "type"), (Htruthy "search"), (Htext "search"),
    (Htruthy "list"), (Htext "list");
    (done || by (unfold query_keys; repeat constructor)).
Qed.

Lemma same_query_text (p1 p2 : gmap string string) :
  (∀ key, key ∈ query_keys → text (p1 !! key) = text (p2 !! key)) →
  same_query p1 p2.
Proof.
  intros Htext. apply same_query_intro; [|auto].
  rewrite !page_of_text, (Htext "page"); [done|].
  unfold query_keys. by repeat constructor.
Qed.

(** A property the code does not read leaves the result as it is: keys
    outside the eight it knows are ignored, whatever their value. *)
Theorem getGoodsList_ignores_other_keys db params k v :
  k ∉ query_keys →
  getGoodsList db (<[k:=v]> params) = getGoodsList db params.
Proof.
  intros Hk. apply getGoodsList_same_query, same_query_text.
  intros key Hin. rewrite lookup_insert_ne; [done|].
  intros ->. by destruct Hk.
Qed.

Lemma getGoodsList_ignores_other_keys_witness :
  getGoodsList db3 (<["color" := "red"]> {["gender" := "women"]})
  = getGoodsList db3 {["gender" := "women"]}.
Proof.
  apply getGoodsList_ignores_other_keys.
  unfold query_keys. rewrite !not_elem_of_cons.
  repeat split; (discriminate || apply not_elem_of_nil).
Defined.

(** A property given with an empty value ([?gender=], or a piece with no
    [=] at all) is treated exactly as if it were not given. *)
Theorem getGoodsList_empty_value_is_absent db params k :
  getGoodsList db (<[k:=EmptyString]> params)
  = getGoodsList db (delete k params).
Proof.
  apply getGoodsList_same_query, same_query_text. intros key _.
  destruct (decide (k = key)) as [->|Hne].
  - by rewrite lookup_insert_eq, lookup_delete_eq.
  - by rewrite lookup_insert_ne, lookup_delete_ne.
Qed.

(** A [page] that coerces to [0] or to no number at all ([page=0],
    [page=abc]) selects page 1, as a missing [page] does. *)
Theorem getGoodsList_page_defaults_to_first db params s :
  toNumber s = Num 0 ∨ toNumber s = NaN →
  getGoodsList db (<["page":=s]> params)
  = getGoodsList db (delete "page" params)
  ∧ page_of (<["page":=s]> params) = Num 1.
Proof.
  intros Hs.
  assert (page_of (<["page":=s]> params) = Num 1) as Hpage.
  { unfold page_of. rewrite lookup_insert_eq. by destruct Hs as [-> | ->]. }
  split; [|done].
  apply getGoodsList_same_query, same_query_intro.
  - rewrite Hpage. unfold page_of. by rewrite lookup_delete_eq.
  - intros key _ Hne. by rewrite lookup_insert_ne, lookup_delete_ne.
Qed.

Lemma getGoodsList_page_defaults_to_first_witness :
  getGoodsList db3 (<["page":="abc"]> {["count" := "2"]})
  = getGoodsList db3 (delete "page" {["count" := "2"]})
  ∧ page_of (<["page":="abc"]> {["count" := "2"]}) = Num 1.
Proof.
  apply (getGoodsList_page_defaults_to_first db3 {["count" := "2"]} "abc").
  right. reflexivity.
Defined.

(** ** The gender, category and type filters *)

(** What the three filters of lines 59-70 ask of an item, taken together. *)
Definition wanted (params : gmap string string) (item : Item) : bool :=
  (negb (truthy (params !! "gender")) || by_gender params item)
  && (negb (truthy (params !! "category")) || by_category params item)
  && (negb (truthy (params !! "type")) || by_type params item).

Lemma filter_filter {A} (f h : A → bool) (l : list A) :
  List.filter f (List.filter h l) = List.filter (fun x => h x && f x) l.
Proof.
  induction l as [|x l IH]; [done|]. simpl.
  destruct (h x); simpl; [|done]. destruct (f x); by rewrite IH.
Qed.

Lemma filter_true {A} (f : A → bool) (l : list A) :
  (∀ x, f x = true) → List.filter f l = l.
Proof.
  intros Hf. induction l as [|x l IH]; [done|]. simpl. by rewrite Hf, IH.
Qed.

Lemma narrowed_wanted db params :
  narrowed db params = List.filter (wanted params) (goods db).
Proof.
  unfold narrowed, wanted.
  destruct (truthy (params !! "gender")), (truthy (params !! "category")),
    (truthy (params !! "type")); simpl;
    rewrite ?filter_filter; try done;
    first [ by symmetry; apply filter_true
          | apply filter_ext; intros x;
            by destruct (by_gender params x), (by_category params x),
                 (by_type params x) ].
Qed.

Lemma slice_subseteq {A} (l : list A) (a b : number) : slice l a b ⊆ l.
Proof.
  unfold slice. etrans; [apply subseteq_take|apply subseteq_drop].
Qed.

(** Without [search], [top] and [list], and with the guard silent, the
    paginated data is the catalog filtered once by the conjunction of the
    requested gender, category and type, each compared by string equality
    and each skipped when not given: [totalCount] counts exactly the
    catalog items that agree with all of them, and every returned item is
    one of these. *)
Theorem getGoodsList_narrowing_exact db params g :
  reaches_pagination params = true →
  truthy (params !! "search") = false →
  ∃ r, getGoodsList db params g = (inr (Page r), g)
       ∧ PageResult.totalCount r
         = length (List.filter (wanted params) (goods db))
       ∧ (∀ item, item ∈ PageResult.goods r →
            item ∈ goods db ∧ wanted params item = true)
       ∧ ∀ item, wanted params item = true
           ↔ (truthy (params !! "gender") = true →
                gender item = text (params !! "gender"))
             ∧ (truthy (params !! "category") = true →
                  category item = text (params !! "category"))
             ∧ (truthy (params !! "type") = true →
                  type item = text (params !! "type")).
Proof.
  intros Hreach Hsearch.
  exists (pagination (filtered db params) (page_of params) (count_of params)).
  assert (filtered db params = List.filter (wanted params) (goods db)) as Heq.
  { unfold filtered. rewrite Hsearch. apply narrowed_wanted. }
  split; [by apply getGoodsList_page|]. split; [|split].
  - simpl. by rewrite Heq.
  - intros item Hitem. apply filter_elem_of. rewrite <- Heq.
    by apply (slice_subseteq _ _ _ _ Hitem).
  - intros item. unfold wanted, by_gender, by_category, by_type.
    rewrite !andb_true_iff, !orb_true_iff, !negb_true_iff, !String.eqb_eq.
    destruct (truthy (params !! "gender")), (truthy (params !! "category")),
      (truthy (params !! "type")); intuition congruence.
Qed.

Lemma getGoodsList_narrowing_exact_witness :
  ∃ r, getGoodsList db3 {["gender" := "women"; "category" := "socks"]} rng0
       = (inr (Page r), rng0)
       ∧ PageResult.totalCount r = 1%nat.
Proof.
  destruct (getGoodsList_narrowing_exact db3
              {["gender" := "women"; "category" := "socks"]} rng0)
    as (r & Hcall & Htotal & _); [reflexivity | reflexivity |].
  exists r. split; [exact Hcall|]. rewrite Htotal. reflexivity.
Defined.

(** ** Letter case and white space in [search] and [list] *)

Lemma is_space_lower (c : ascii) : is_space (lower_ascii c) = is_space c.
Proof. by destruct c as [[] [] [] [] [] [] [] []]. Qed.

Lemma eqb_empty_lower (s : string) :
  String.eqb (toLowerCase s) EmptyString = String.eqb s EmptyString.
Proof. by destruct s. Qed.

Lemma lower_code (c : ascii) :
  code (lower_ascii c) = code c
  ∨ ((65 ≤ code c)%N ∧ (code c ≤ 90)%N ∧ code (lower_ascii c) = (code c + 32)%N).
Proof.
  destruct c as [[] [] [] [] [] [] [] []];
    (by left) || (right; cbn; repeat split; lia).
Qed.

Lemma code_eqb_lower (c : ascii) (k : N) :
  (122 < k)%N → (code (lower_ascii c) =? k)%N = (code c =? k)%N.
Proof.
  intros Hk. destruct (lower_code c) as [->|(Hlo & Hhi & Heq)]; [done|].
  rewrite Heq.
  destruct (N.eqb_spec (code c + 32) k), (N.eqb_spec (code c) k); (done || lia).
Qed.

Lemma code_leb_lower (c : ascii) (k : N) :
  (122 < k)%N → (code (lower_ascii c) <=? k)%N = (code c <=? k)%N.
Proof.
  intros Hk. destruct (lower_code c) as [->|(Hlo & Hhi & Heq)]; [done|].
  rewrite Heq.
  destruct (N.leb_spec (code c + 32) k), (N.leb_spec (code c) k); (done || lia).
Qed.

Lemma code_geb_lower (c : ascii) (k : N) :
  (122 < k)%N → (k <=? code (lower_ascii c))%N = (k <=? code c)%N.
Proof.
  intros Hk. destruct (lower_code c) as [->|(Hlo & Hhi & Heq)]; [done|].
  rewrite Heq.
  destruct (N.leb_spec k (code c + 32)), (N.leb_spec k (code c)); (done || lia).
Qed.

Lemma is_space2_lower (c1 c2 : ascii) :
  is_space2 (lower_ascii c1) (lower_ascii c2) = is_space2 c1 c2.
Proof. unfold is_space2. by rewrite !code_eqb_lower by lia. Qed.

Lemma is_space3_lower (c1 c2 c3 : ascii) :
  is_space3 (lower_ascii c1) (lower_ascii c2) (lower_ascii c3)
  = is_space3 c1 c2 c3.
Proof.
  unfold is_space3.
  by rewrite !code_eqb_lower, !code_leb_lower, !code_geb_lower by lia.
Qed.

Lemma trimStart_eq (s : string) :
  trimStart s
  = match s with
    | EmptyString => EmptyString
    | String c1 r1 =>
        if is_space c1 then trimStart r1
        else match r1 with
             | String c2 r2 =>
                 if is_space2 c1 c2 then trimStart r2
                 else match r2 with
                      | String c3 r3 =>
                          if is_space3 c1 c2 c3 then trimStart r3 else s
                      | EmptyString => s
                      end
             | EmptyString => s
             end
    end.
Proof. by destruct s. Qed.

Lemma trimStart_lower_bounded (n : nat) (s : string) :
  (String.length s ≤ n)%nat →
  trimStart (toLowerCase s) = toLowerCase (trimStart s).
Proof.
  revert s. induction n as [|n IH]; intros s Hlen.
  { destruct s; [done|]. simpl in Hlen. lia. }
  destruct s as [|c1 [|c2 [|c3 r3]]]; simpl in Hlen; [done|..];
    cbn [toLowerCase];
    rewrite (trimStart_eq (String (lower_ascii c1) _)),
      (trimStart_eq (String c1 _));
    lazy beta iota;
    rewrite ?is_space_lower, ?is_space2_lower, ?is_space3_lower.
  - by destruct (is_space c1).
  - destruct (is_space c1).
    + apply (IH (String c2 EmptyString)). simpl. lia.
    + by destruct (is_space2 c1 c2).
  - destruct (is_space c1).
    + apply (IH (String c2 (String c3 r3))). simpl. lia.
    + destruct (is_space2 c1 c2).
      * apply (IH (String c3 r3)). simpl. lia.
      * destruct (is_space3 c1 c2 c3); [|done]. apply IH. lia.
Qed.

Lemma trimStart_lower (s : string) :
  trimStart (toLowerCase s) = toLowerCase (trimStart s).
Proof. by apply (trimStart_lower_bounded (String.length s)). Qed.

Lemma blank_lower (s : string) : blank (toLowerCase s) = blank s.
Proof. unfold blank. by rewrite trimStart_lower, eqb_empty_lower. Qed.

Lemma trimEnd_lower (s : string) :
  trimEnd (toLowerCase s) = toLowerCase (trimEnd s).
Proof.
  induction s as [|c s IH]; [done|].
  change (toLowerCase (String c s)) with (String (lower_ascii c) (toLowerCase s)) at 1.
  cbn [trimEnd].
  change (String (lower_ascii c) (toLowerCase s)) with (toLowerCase (String c s)).
  rewrite blank_lower. destruct (blank (String c s)); [done|].
  simpl. by rewrite IH.
Qed.

Lemma trim_lower (s : string) : trim (toLowerCase s) = toLowerCase (trim s).
Proof. unfold trim. by rewrite trimStart_lower, trimEnd_lower. Qed.

Lemma truthy_lower (s1 s2 : string) :
  toLowerCase s1 = toLowerCase s2 → truthy (Some s1) = truthy (Some s2).
Proof.
  intros Heq. simpl. by rewrite <- (eqb_empty_lower s1), Heq, eqb_empty_lower.
Qed.

(** Two [search] texts, or two [list] texts, that differ only in the case
    of their letters give the same result. *)
Theorem getGoodsList_text_case_insensitive db params s1 s2 :
  toLowerCase s1 = toLowerCase s2 →
  getGoodsList db (<["search":=s1]> params)
  = getGoodsList db (<["search":=s2]> params)
  ∧ getGoodsList db (<["list":=s1]> params)
    = getGoodsList db (<["list":=s2]> params).
Proof.
  intros Heq.
  assert (toLowerCase (trim s1) = toLowerCase (trim s2)) as Hnorm
    by by rewrite <- !trim_lower, Heq.
  pose proof (truthy_lower s1 s2 Heq) as Htruthy.
  split; apply getGoodsList_same_query;
    unfold same_query, page_of, count_of, search_of, list_of;
    repeat (rewrite lookup_insert_eq || rewrite lookup_insert_ne by done);
    repeat split; (done || exact Hnorm || exact Htruthy).
Qed.

Lemma getGoodsList_text_case_insensitive_witness :
  getGoodsList db3 (<["search":="SHIRT 2"]> ∅)
  = getGoodsList db3 (<["search":="shirt 2"]> ∅)
  ∧ getGoodsList db3 (<["list":="SHIRT 2"]> ∅)
    = getGoodsList db3 (<["list":="shirt 2"]> ∅).
Proof.
  apply (getGoodsList_text_case_insensitive db3 ∅ "SHIRT 2" "shirt 2").
  reflexivity.
Defined.

Lemma startsWith_empty (s : string) : startsWith s EmptyString = true.
Proof. done. Qed.

Lemma includes_empty (s : string) : includes s EmptyString = true.
Proof. destruct s; done. Qed.

(** A [search] made of white space only is not ignored: it is truthy, it
    trims to the empty text, and the empty text occurs in every title, so
    the whole catalog is paginated, whatever gender, category and type
    say. *)
Theorem getGoodsList_blank_search_matches_all db params g s :
  params !! "search" = Some s →
  s ≠ EmptyString →
  trim s = EmptyString →
  reaches_pagination params = true →
  getGoodsList db params g
  = (inr (Page (pagination (goods db) (page_of params) (count_of params))), g).
Proof.
  intros Hs Hne Htrim Hreach. rewrite getGoodsList_page by done.
  unfold filtered, search_of. rewrite Hs, truthy_Some by done.
  change (text (Some s)) with s. rewrite Htrim.
  rewrite filter_true; [done|].
  intros item. unfold matches_search. by rewrite includes_empty.
Qed.

Lemma getGoodsList_blank_search_matches_all_witness :
  getGoodsList db3 {["search" := "  "; "gender" := "men"]} rng0
  = (inr (Page (PageResult.mk (goods db3) (Num 1) (Num 1) 3)), rng0).
Proof.
  rewrite (getGoodsList_blank_search_matches_all db3
             {["search" := "  "; "gender" := "men"]} rng0 "  ");
    [reflexivity | reflexivity | discriminate | reflexivity | reflexivity].
Defined.

(** ** Identifiers with capital letters *)

Definition is_upper (c : ascii) : bool :=
  ((65 <=? code c) && (code c <=? 90))%N.

(** Some character of the text is an ASCII capital. *)
Fixpoint has_upper (s : string) : bool :=
  match s with
  | EmptyString => false
  | String c s' => is_upper c || has_upper s'
  end.

Lemma is_upper_lower (c : ascii) : is_upper (lower_ascii c) = false.
Proof. by destruct c as [[] [] [] [] [] [] [] []]. Qed.

Lemma has_upper_lower (s : string) : has_upper (toLowerCase s) = false.
Proof.
  induction s as [|c s IH]; [done|]. simpl. by rewrite is_upper_lower, IH.
Qed.

Lemma has_upper_app (a b : string) :
  has_upper (a ++ b) = has_upper a || has_upper b.
Proof.
  induction a as [|c a IH]; [done|]. simpl. by rewrite IH, orb_assoc.
Qed.

(** The [list] text is lower-cased but the identifiers are not: an item
    whose identifier holds an ASCII capital letter is never returned by a
    [list] query, not even when the identifier is given verbatim. *)
Theorem list_never_returns_capital_ids db params g item :
  truthy (params !! "top") = false →
  truthy (params !! "list") = true →
  has_upper (id item) = true →
  ∀ items g', getGoodsList db params g = (inr (Raw items), g') →
              Some item ∉ items.
Proof.
  intros Htop Hlist Hupper items g' Hcall Hin.
  destruct (category_without_gender params) eqn:Hguard.
  - by rewrite getGoodsList_403 in Hcall.
  - rewrite getGoodsList_list in Hcall by done. simplify_eq.
    apply list_elem_of_fmap in Hin as (found & [= <-] & Hfound).
    apply filter_elem_of in Hfound as [_ Hsub].
    apply includes_spec in Hsub as (pre & post & Hsub).
    pose proof (has_upper_lower (trim (text (params !! "list")))) as Hlow.
    unfold list_of in Hsub. rewrite Hsub, !has_upper_app, Hupper in Hlow.
    by rewrite orb_true_r in Hlow.
Qed.

Lemma list_never_returns_capital_ids_witness :
  has_upper (id (sample "A" "women" "dress" true)) = true
  ∧ getGoodsList db13 {["list" := "A,B"]} rng0 = (inr (Raw []), rng0)
  ∧ Some (sample "A" "women" "dress" true) ∉ ([] : list (option Item)).
Proof.
  split; [reflexivity|]. split; [reflexivity|].
  apply (list_never_returns_capital_ids db13 {["list" := "A,B"]} rng0
           (sample "A" "women" "dress" true)) with (g' := rng0);
    reflexivity.
Defined.

(** ** The [top] branch never repeats an item *)

(** When the catalog lists no item twice, neither does a [top] result:
    two filled positions of the array never hold the same item. *)
Theorem top_never_repeats db params g :
  truthy (params !! "top") = true →
  NoDup (goods db) →
  ∀ items g', getGoodsList db params g = (inr (Raw items), g') →
    ∀ i j item, items !! i = Some (Some item) →
                items !! j = Some (Some item) → i = j.
Proof.
  intros Htop Hnodup items g' Hcall i j item Hi Hj.
  rewrite getGoodsList_top in Hcall by done.
  pose proof (shuffle_Permutation (top_matches db params) g) as Hperm.
  destruct (shuffle (top_matches db params) g) as [shuffled g2].
  simpl in Hperm. simplify_eq.
  assert (NoDup (take 8 (Some <$> shuffled))) as Hfilled.
  { apply (sublist_NoDup _ (Some <$> shuffled)); [|apply sublist_take].
    apply (NoDup_fmap_2 _). rewrite Hperm.
    apply (sublist_NoDup _ (goods db)); [done|apply filter_sublist]. }
  assert (∀ k, set_length 8 (Some <$> shuffled) !! k = Some (Some item) →
               take 8 (Some <$> shuffled) !! k = Some (Some item)) as Hpart.
  { intros k Hk. unfold set_length in Hk.
    apply lookup_app_Some in Hk as [Hk|[_ Hk]]; [done|].
    by apply lookup_replicate in Hk as [? _]. }
  eapply NoDup_lookup; eauto.
Qed.

Lemma top_never_repeats_witness :
  NoDup (goods db13)
  ∧ ∀ items g',
      getGoodsList db13 {["top" := "women"]} rng0 = (inr (Raw items), g') →
      ∀ i j item, items !! i = Some (Some item) →
                  items !! j = Some (Some item) → i = j.
Proof.
  assert (NoDup (goods db13)) as Hnodup.
  { apply NoDup_ListNoDup. vm_compute.
    repeat (constructor; [simpl; intuition discriminate|]). constructor. }
  split; [exact Hnodup|].
  apply (top_never_repeats db13 {["top" := "women"]} rng0);
    [reflexivity | exact Hnodup].
Defined.

(** ** decodeURIComponent *)

(** The character [c] occurs in the text. *)
Fixpoint occurs (c : ascii) (s : string) : bool :=
  match s with
  | EmptyString => false
  | String a s' => Ascii.eqb a c || occurs c s'
  end.

Lemma occurs_app (c : ascii) (a b : string) :
  occurs c (a ++ b) = occurs c a || occurs c b.
Proof.
  induction a as [|x a IH]; [done|]. simpl. by rewrite IH, orb_assoc.
Qed.

(** The text starts with two hexadecimal digits. *)
Definition two_hex (s : string) : bool :=
  match s with
  | String h (String l _) =>
      match hex_value h, hex_value l with
      | Some _, Some _ => true
      | _, _ => false
      end
  | _ => false
  end.

(** [escapes], one character at a time. *)
Lemma escapes_cons (c : ascii) (s : string) :
  escapes (String c s)
  = if Ascii.eqb c "%" then
      match s with
      | String h (String l s') =>
          match hex_value h, hex_value l, escapes s' with
          | Some x, Some y, Some us => Some (Esc (16 * x + y) :: us)
          | _, _, _ => None
          end
      | _ => None
      end
    else cons (Lit c) <$> escapes s.
Proof.
  destruct c as [[] [] [] [] [] [] [] []]; reflexivity.
Qed.

Lemma escapes_plain (s : string) :
  occurs "%" s = false → escapes s = Some (Lit <$> list_ascii_of_string s).
Proof.
  induction s as [|c s IH]; [done|]. intros Hs.
  apply orb_false_iff in Hs as [Hc Hs].
  rewrite escapes_cons, Hc, IH by done. done.
Qed.

Lemma decode_units_literals (l : list ascii) :
  decode_units (Lit <$> l) = Some (string_of_list_ascii l).
Proof.
  induction l as [|c l IH]; [done|].
  rewrite fmap_cons. cbn [decode_units]. by rewrite IH.
Qed.

(** A text with no percent sign is decoded to itself. *)
Theorem decodeURIComponent_plain (s : string) :
  occurs "%" s = false → decodeURIComponent s = Some s.
Proof.
  intros Hs. unfold decodeURIComponent. rewrite escapes_plain by done.
  simpl. by rewrite decode_units_literals, string_of_list_ascii_of_string.
Qed.

Lemma decodeURIComponent_plain_witness :
  decodeURIComponent "t-shirt, size L" = Some "t-shirt, size L".
Proof. apply decodeURIComponent_plain. reflexivity. Defined.

Lemma append_nil_l (s : string) : EmptyString ++ s = s.
Proof. done. Qed.

Lemma append_cons (c : ascii) (a b : string) :
  String c a ++ b = String c (a ++ b).
Proof. done. Qed.

Lemma escapes_malformed (n : nat) (pre post : string) :
  (String.length pre ≤ n)%nat →
  two_hex post = false →
  escapes (pre ++ String "%" post) = None.
Proof.
  revert pre. induction n as [|n IH]; intros pre Hlen Hpost.
  - destruct pre; [|simpl in Hlen; lia]. rewrite append_nil_l.
    rewrite escapes_cons. simpl.
    destruct post as [|h [|l post]]; try done.
    simpl in Hpost. by destruct (hex_value h), (hex_value l).
  - destruct pre as [|c pre]; [apply (IH EmptyString); [simpl; lia|done]|].
    simpl in Hlen. rewrite append_cons, escapes_cons.
    destruct (Ascii.eqb c "%").
    + destruct pre as [|h [|l pre]]; rewrite ?append_cons, ?append_nil_l.
      * destruct post as [|l post]; reflexivity.
      * destruct (hex_value h); reflexivity.
      * simpl in Hlen. rewrite (IH pre) by (done || lia).
        by destruct (hex_value h), (hex_value l).
    + by rewrite (IH pre) by (done || lia).
Qed.

(** A percent sign that is not followed by two hexadecimal digits makes
    [decodeURIComponent] throw, wherever in the text it stands. *)
Theorem decodeURIComponent_malformed (pre post : string) :
  two_hex post = false →
  decodeURIComponent (pre ++ String "%" post) = None.
Proof.
  intros Hpost. unfold decodeURIComponent.
  by rewrite (escapes_malformed (String.length pre)).
Qed.

Lemma decodeURIComponent_malformed_witness :
  decodeURIComponent "100%25 or 50% off" = None.
Proof.
  apply (decodeURIComponent_malformed "100%25 or 50" " off"). reflexivity.
Defined.

Lemma option_fmap_app_nil {A} (o : option (list A)) : (app []) <$> o = o.
Proof. by destruct o. Qed.

Lemma escapes_app (n : nat) (a b : string) (ua : list unit_) :
  (String.length a ≤ n)%nat →
  escapes a = Some ua →
  escapes (a ++ b) = (app ua) <$> escapes b.
Proof.
  revert a ua. induction n as [|n IH]; intros a ua Hlen Ha.
  - destruct a; [|simpl in Hlen; lia]. simpl in Ha. simplify_eq.
    by rewrite append_nil_l, option_fmap_app_nil.
  - destruct a as [|c a].
    { simpl in Ha. simplify_eq. by rewrite append_nil_l, option_fmap_app_nil. }
    simpl in Hlen. rewrite escapes_cons in Ha. rewrite append_cons, escapes_cons.
    destruct (Ascii.eqb c "%").
    + destruct a as [|h [|l a]]; try done. simpl in Hlen.
      rewrite !append_cons.
      destruct (hex_value h) as [x|]; [|done].
      destruct (hex_value l) as [y|]; [|done].
      destruct (escapes a) as [us|] eqn:Hus; [|done]. simplify_eq.
      rewrite (IH a us) by (done || lia). by destruct (escapes b).
    + destruct (escapes a) as [us|] eqn:Hus; [|done]. simpl in Ha. simplify_eq.
      rewrite (IH a us) by (done || lia). by destruct (escapes b).
Qed.

Lemma octets_app (bs : list N) (s t : string) :
  octets bs s ++ t = octets bs (s ++ t).
Proof. induction bs as [|b bs IH]; [done|]. simpl. by rewrite append_cons, IH. Qed.

Lemma decode_units_app (n : nat) (ua ub : list unit_) (sa : string) :
  (length ua ≤ n)%nat →
  decode_units ua = Some sa →
  decode_units (ua ++ ub) = (String.append sa) <$> decode_units ub.
Proof.
  revert ua sa. induction n as [|n IH]; intros ua sa Hlen Hua.
  - destruct ua; [|simpl in Hlen; lia]. simpl in Hua. simplify_eq.
    simpl. by destruct (decode_units ub).
  - destruct ua as [|[c|b1] ua].
    + simpl in Hua. simplify_eq. simpl. by destruct (decode_units ub).
    + simpl in Hlen, Hua. cbn [app decode_units].
      destruct (decode_units ua) as [s|] eqn:Hs; [|done]. simpl in Hua.
      simplify_eq. rewrite (IH ua s) by (done || lia).
      by destruct (decode_units ub).
    + simpl in Hlen. cbn [decode_units] in Hua. cbn [app decode_units].
      repeat match type of Hua with
             | (if ?c then _ else _) = _ => destruct c
             | match ?r with [] => _ | _ :: _ => _ end = _ =>
                 destruct r as [|[?|?] ?]; try done; simpl in Hlen; cbn [app]
             end; try done;
        match type of Hua with
        | _ <$> decode_units ?r = _ =>
            destruct (decode_units r) as [s|] eqn:Hs; [|done];
            simpl in Hua; simplify_eq;
            rewrite (IH r s) by (done || lia);
            destruct (decode_units ub); simpl; [|done];
            by rewrite ?octets_app
        end.
Qed.

Lemma decode_append (a b a' : string) :
  decodeURIComponent a = Some a' →
  decodeURIComponent (a ++ b) = (String.append a') <$> decodeURIComponent b.
Proof.
  unfold decodeURIComponent. intros Ha.
  destruct (escapes a) as [ua|] eqn:Hua; [|done]. simpl in Ha.
  rewrite (escapes_app (String.length a) a b ua) by done.
  destruct (escapes b) as [ub|]; [|done]. simpl.
  by apply (decode_units_app (length ua)).
Qed.

(** Decoding goes left to right and composes: once a prefix decodes, the
    whole text decodes to the decoded prefix followed by the decoded rest,
    and throws exactly when the rest throws. *)
Theorem decodeURIComponent_app (a b a' : string) :
  decodeURIComponent a = Some a' →
  (∀ b', decodeURIComponent b = Some b' →
         decodeURIComponent (a ++ b) = Some (a' ++ b'))
  ∧ (decodeURIComponent b = None → decodeURIComponent (a ++ b) = None).
Proof.
  intros Ha. rewrite (decode_append a b a' Ha).
  split; [intros b' Hb|intros Hb]; by rewrite Hb.
Qed.

Lemma decodeURIComponent_app_witness :
  decodeURIComponent ("caf%C3%A9" ++ "%20au%20lait") = Some "café au lait"
  ∧ decodeURIComponent ("caf%C3%A9" ++ "%2") = None.
Proof.
  destruct (decodeURIComponent_app "caf%C3%A9" "%20au%20lait" "café")
    as [Hsome _]; [reflexivity|].
  destruct (decodeURIComponent_app "caf%C3%A9" "%2" "café")
    as [_ Hnone]; [reflexivity|].
  split; [apply Hsome|apply Hnone]; reflexivity.
Defined.

(** An escape [%XX] below 128 stands for the character with that code,
    wherever it stands between two texts that decode. *)
Theorem decodeURIComponent_ascii_escape (a b a' b' : string) (h l : ascii)
    (x y : N) :
  decodeURIComponent a = Some a' →
  decodeURIComponent b = Some b' →
  hex_value h = Some x →
  hex_value l = Some y →
  (16 * x + y < 128)%N →
  decodeURIComponent (a ++ String "%" (String h (String l b)))
  = Some (a' ++ String (ascii_of_N (16 * x + y)) b').
Proof.
  intros Ha Hb Hh Hl Hlow.
  rewrite (decode_append a _ a') by done.
  change (String "%" (String h (String l b)))
    with (String "%" (String h (String l EmptyString)) ++ b).
  rewrite (decode_append _ b
             (String (ascii_of_N (16 * x + y)) EmptyString)), Hb; [done|].
  unfold decodeURIComponent. rewrite escapes_cons. simpl.
  rewrite Hh, Hl. simpl.
  by destruct (N.ltb_spec (16 * x + y) 128); [|lia].
Qed.

Lemma decodeURIComponent_ascii_escape_witness :
  decodeURIComponent ("size" ++ String "%" (String "3" (String "D" "42")))
  = Some ("size" ++ String (ascii_of_N (16 * 3 + 13)) "42").
Proof.
  apply (decodeURIComponent_ascii_escape "size" "42" "size" "42" "3" "D" 3 13);
    (reflexivity || lia).
Defined.

(** ** The query string *)

Lemma split_plain (sep : ascii) (s : string) :
  occurs sep s = false → split sep s = [s].
Proof.
  induction s as [|c s IH]; [done|]. simpl. intros Hs.
  apply orb_false_iff in Hs as [Hc Hs]. by rewrite Hc, IH.
Qed.

Lemma split_app (sep : ascii) (a b : string) :
  occurs sep a = false →
  split sep (a ++ String sep b) = a :: split sep b.
Proof.
  induction a as [|c a IH]; intros Ha.
  - rewrite append_nil_l. simpl. by rewrite Ascii.eqb_refl.
  - simpl in Ha. apply orb_false_iff in Ha as [Hc Ha].
    rewrite append_cons. simpl. by rewrite Hc, IH.
Qed.

(** One [key=value] piece, and a query made of such pieces. *)
Definition render_pair (kv : string * string) : string :=
  kv.1 ++ String "=" kv.2.

Fixpoint render (kvs : list (string * string)) : string :=
  match kvs with
  | [] => EmptyString
  | [kv] => render_pair kv
  | kv :: rest => render_pair kv ++ String "&" (render rest)
  end.

(** The key holds no separator; the value holds no separator and no
    escape; and the key is not [__proto__], the one name whose assignment
    on a plain object is not the creation of a property. *)
Definition plain (kv : string * string) : bool :=
  negb (occurs "&" kv.1) && negb (occurs "=" kv.1)
  && negb (occurs "&" kv.2) && negb (occurs "=" kv.2)
  && negb (occurs "%" kv.2)
  && negb (String.eqb kv.1 "__proto__").

(** The object the loop of lines 150-155 builds from a list of bindings:
    a later binding of a key replaces an earlier one. *)
Definition params_of (kvs : list (string * string)) : gmap string string :=
  foldl (fun m kv => <[kv.1:=kv.2]> m) ∅ kvs.

Lemma plain_spec (kv : string * string) :
  plain kv = true →
  occurs "&" kv.1 = false ∧ occurs "=" kv.1 = false
  ∧ occurs "&" kv.2 = false ∧ occurs "=" kv.2 = false
  ∧ occurs "%" kv.2 = false
  ∧ kv.1 ≠ "__proto__".
Proof.
  unfold plain. rewrite !andb_true_iff, !negb_true_iff, String.eqb_neq. tauto.
Qed.

Lemma occurs_render_pair (kv : string * string) :
  plain kv = true → occurs "&" (render_pair kv) = false.
Proof.
  intros (Hk & _ & Hv & _)%plain_spec. unfold render_pair.
  rewrite occurs_app. simpl. by rewrite Hk, Hv.
Qed.

Lemma split_render (kvs : list (string * string)) :
  kvs ≠ [] → Forall (fun kv => plain kv = true) kvs →
  split "&" (render kvs) = render_pair <$> kvs.
Proof.
  induction kvs as [|kv kvs IH]; [done|]. intros _ Hplain.
  apply Forall_cons in Hplain as [Hkv Hplain].
  destruct kvs as [|kv' kvs].
  - simpl. by rewrite split_plain by by apply occurs_render_pair.
  - change (render (kv :: kv' :: kvs))
      with (render_pair kv ++ String "&" (render (kv' :: kvs))).
    rewrite split_app by by apply occurs_render_pair.
    by rewrite IH.
Qed.

Lemma parse_piece (kv : string * string) (rest : list string)
    (m : gmap string string) :
  plain kv = true →
  parse_pieces (render_pair kv :: rest) m
  = parse_pieces rest (<[kv.1:=kv.2]> m).
Proof.
  intros (_ & Hk & _ & Hv & Hescape & _)%plain_spec.
  cbn [parse_pieces]. unfold render_pair.
  rewrite split_app, split_plain by done. cbn [hd lookup list_lookup].
  destruct (truthy (Some kv.2)) eqn:Htruthy.
  - cbn [text default]. by rewrite decodeURIComponent_plain.
  - simpl in Htruthy. apply negb_false_iff, String.eqb_eq in Htruthy.
    by rewrite Htruthy.
Qed.

Lemma parse_pieces_render (kvs : list (string * string))
    (m : gmap string string) :
  Forall (fun kv => plain kv = true) kvs →
  parse_pieces (render_pair <$> kvs) m
  = inr (foldl (fun m kv => <[kv.1:=kv.2]> m) m kvs).
Proof.
  revert m. induction kvs as [|kv kvs IH]; intros m Hplain; [done|].
  apply Forall_cons in Hplain as [Hkv Hplain].
  rewrite fmap_cons, parse_piece by done. by apply IH.
Qed.

Lemma render_not_empty (kv : string * string) (kvs : list (string * string)) :
  render (kv :: kvs) ≠ EmptyString.
Proof.
  destruct kvs; simpl; unfold render_pair; by destruct kv as [[|? ?] ?].
Qed.

Lemma parse_query_rendered (kvs : list (string * string)) :
  Forall (fun kv => plain kv = true) kvs →
  parse_query (Some (render kvs)) = inr (params_of kvs).
Proof.
  destruct kvs as [|kv l]; intros Hl; [done|]. unfold parse_query.
  rewrite truthy_Some by apply render_not_empty.
  change (text (Some (render (kv :: l)))) with (render (kv :: l)).
  rewrite split_render by done.
  by apply parse_pieces_render.
Qed.

(** Parsing a query [k1=v1&...&kn=vn] whose keys and values hold no
    separator and whose values hold no escape yields the object that binds
    each key to its value, the last one when a key comes more than once;
    an empty value is kept as the empty text. *)
Theorem parse_query_render (kvs : list (string * string)) :
  Forall (fun kv => plain kv = true) kvs →
  parse_query (Some (render kvs)) = inr (params_of kvs)
  ∧ ∀ k v, plain (k, v) = true →
           parse_query (Some (render (kvs ++ [(k, v)])))
           = inr (<[k:=v]> (params_of kvs)).
Proof.
  intros Hplain. split; [by apply parse_query_rendered|].
  intros k v Hkv. rewrite parse_query_rendered.
  - unfold params_of. by rewrite foldl_app.
  - apply Forall_app. split; [done|]. by apply Forall_singleton.
Qed.

Lemma parse_query_render_witness :
  parse_query (Some "gender=women&page=&gender=men")
  = inr {["gender" := "men"; "page" := EmptyString]}.
Proof.
  destruct (parse_query_render [("gender", "women"); ("page", EmptyString)])
    as [_ Hlast]; [by repeat constructor|].
  etrans; [exact (Hlast "gender" "men" eq_refl)|]. reflexivity.
Defined.

(** ** The handler on [/api/goods] *)

(** A request under the prefix that is not answered earlier: the query is
    parsed first, then the route runs inside [try]. *)
Lemma handler_under_prefix db (verb rest : string) (g : Rng) :
  String.eqb verb "OPTIONS" = false →
  includes (URI_PREFIX ++ rest) "/api/categories" = false →
  includes (URI_PREFIX ++ rest) "/api/colors" = false →
  handler db {| method := verb; url := URI_PREFIX ++ rest |} g
  = match parse_query (split "?" rest !! 1%nat) with
    | inl e => (Uncaught e, g)
    | inr queryParams =>
        let (r, g') :=
          route db verb (hd EmptyString (split "?" rest)) queryParams g in
        (respond r, g')
    end.
Proof.
  intros Hverb Hcategories Hcolors. unfold handler. cbn [url method].
  replace (String.eqb (substring 1 4 (URI_PREFIX ++ rest)) "img")
    with false by reflexivity.
  rewrite Hverb, Hcategories, Hcolors.
  replace (startsWith (URI_PREFIX ++ rest) URI_PREFIX) with true
    by reflexivity.
  replace (substring_from (String.length URI_PREFIX) (URI_PREFIX ++ rest))
    with rest by reflexivity.
  cbn [negb]. destruct (parse_query _) as [e|queryParams]; [done|].
  unfold bind, ret. by destruct (route _ _ _ _ _).
Qed.


(** A [GET] of [/api/goods?k1=v1&...&kn=vn] is answered from
    [getGoodsList] on the parsed parameters: status 200 with the result
    serialised, or the status and payload of the error it throws. *)
Theorem handler_goods_query db (kvs : list (string * string)) (g : Rng) :
  Forall (fun kv => plain kv = true) kvs →
  occurs "?" (render kvs) = false →
  includes (URI_PREFIX ++ String "?" (render kvs)) "/api/categories" = false →
  includes (URI_PREFIX ++ String "?" (render kvs)) "/api/colors" = false →
  handler db {| method := "GET"; url := URI_PREFIX ++ String "?" (render kvs) |} g
  = (match fst (getGoodsList db (params_of kvs) g) with
     | inl e => Sent (statusCode e) (Some (data e))
     | inr result => Sent 200 (Some (json_of_goods result))
     end,
     snd (getGoodsList db (params_of kvs) g)).
Proof.
  intros Hplain Hquestion Hcategories Hcolors.
  rewrite handler_under_prefix by done.
  change (String "?" (render kvs)) with (EmptyString ++ String "?" (render kvs)).
  rewrite split_app, split_plain by done. cbn [hd lookup list_lookup].
  rewrite (parse_query_rendered kvs Hplain).
  unfold route, bind, ret. simpl.
  by destruct (getGoodsList db (params_of kvs) g) as [[e|result] g'].
Qed.

Lemma handler_goods_query_witness :
  handler db3 {| method := "GET"; url := "/api/goods?category=socks&gender=women" |}
    rng0
  = (Sent 200
       (Some (JObject [("goods", JArray [JItem (sample "3" "women" "socks" false)]);
                       ("page", JNumber 1);
                       ("pages", JNumber 1);
                       ("totalCount", JNumber 1)])), rng0).
Proof.
  etrans;
    [exact (handler_goods_query db3 [("category", "socks"); ("gender", "women")]
              rng0 ltac:(by repeat constructor) eq_refl eq_refl eq_refl)|].
  reflexivity.
Defined.



(** Under the prefix, a method other than [GET] and [OPTIONS] is not
    refused: once the query has been parsed the answer is status 200 with
    no body at all. *)
Theorem handler_other_method db (verb rest : string) (g : Rng)
    (queryParams : gmap string string) :
  String.eqb verb "OPTIONS" = false →
  String.eqb verb "GET" = false →
  includes (URI_PREFIX ++ rest) "/api/categories" = false →
  includes (URI_PREFIX ++ rest) "/api/colors" = false →
  parse_query (split "?" rest !! 1%nat) = inr queryParams →
  handler db {| method := verb; url := URI_PREFIX ++ rest |} g
  = (Sent 200 None, g).
Proof.
  intros Hoptions Hget Hcategories Hcolors Hquery.
  rewrite handler_under_prefix, Hquery by done.
  unfold route. by rewrite Hget.
Qed.

Lemma handler_other_method_witness :
  handler db3 {| method := "DELETE"; url := "/api/goods/2" |} rng0
  = (Sent 200 None, rng0).
Proof.
  apply (handler_other_method db3 "DELETE" "/2" rng0 ∅); reflexivity.
Defined.

(** A query value that [decodeURIComponent] rejects leaves the request
    unanswered, whatever the method (short of [OPTIONS]) and the path under
    the prefix: the error is thrown while the query is parsed, before the
    [try] block. *)
Theorem handler_undecodable_value db (verb path k v : string) (g : Rng) :
  String.eqb verb "OPTIONS" = false →
  occurs "?" path = false →
  occurs "?" k = false ∧ occurs "&" k = false ∧ occurs "=" k = false →
  occurs "?" v = false ∧ occurs "&" v = false ∧ occurs "=" v = false →
  decodeURIComponent v = None →
  includes (URI_PREFIX ++ path ++ String "?" (k ++ String "=" v))
    "/api/categories" = false →
  includes (URI_PREFIX ++ path ++ String "?" (k ++ String "=" v))
    "/api/colors" = false →
  handler db {| method := verb;
                url := URI_PREFIX ++ path ++ String "?" (k ++ String "=" v) |} g
  = (Uncaught URIError, g).
Proof.
  intros Hverb Hpath (Hk1 & Hk2 & Hk3) (Hv1 & Hv2 & Hv3) Hdecode
    Hcategories Hcolors.
  rewrite handler_under_prefix by done.
  assert (v ≠ EmptyString) as Hne by by intros ->.
  assert (occurs "?" (k ++ String "=" v) = false) as Hquestion.
  { rewrite occurs_app. simpl. by rewrite Hk1, Hv1. }
  assert (occurs "&" (k ++ String "=" v) = false) as Hamp.
  { rewrite occurs_app. simpl. by rewrite Hk2, Hv2. }
  rewrite split_app, split_plain by done. cbn [lookup list_lookup].
  unfold parse_query.
  rewrite truthy_Some by (destruct k; discriminate).
  change (text (Some (k ++ String "=" v))) with (k ++ String "=" v).
  rewrite split_plain by done. cbn [parse_pieces].
  rewrite split_app, split_plain by done. cbn [hd lookup list_lookup].
  rewrite truthy_Some by done.
  change (text (Some v)) with v. by rewrite Hdecode.
Qed.

Lemma handler_undecodable_value_witness :
  handler db3 {| method := "POST"; url := "/api/goods/2?note=50%" |} rng0
  = (Uncaught URIError, rng0).
Proof.
  apply (handler_undecodable_value db3 "POST" "/2" "note" "50%" rng0);
    repeat split; reflexivity.
Defined.

(** ** What the handler can answer *)

Lemma parse_pieces_error (pieces : list string) (m : gmap string string)
    (e : exn) :
  parse_pieces pieces m = inl e → e = URIError.
Proof.
  revert m. induction pieces as [|piece pieces IH]; intros m; [done|].
  cbn [parse_pieces]. destruct (truthy _); [|apply IH].
  destruct (decodeURIComponent _); [apply IH|]. by intros [= <-].
Qed.

Lemma parse_query_error (query : option string) (e : exn) :
  parse_query query = inl e → e = URIError.
Proof.
  unfold parse_query. destruct (truthy query); [|done].
  apply parse_pieces_error.
Qed.

Lemma getGoodsList_error db params g e :
  fst (getGoodsList db params g) = inl e → e = error403.
Proof.
  unfold getGoodsList, bind, ret.
  destruct (truthy (params !! "top")).
  - by destruct (shuffle _ g).
  - destruct (truthy (params !! "category")), (truthy (params !! "gender")),
      (truthy (params !! "list")); simpl; by intros [= <-] || done.
Qed.

Lemma getItems_error db itemId e : getItems db itemId = inl e → e = error404.
Proof. unfold getItems. destruct (List.find _ _); [done|]. by intros [= <-]. Qed.

(** Every response the handler writes carries status 200, 403 or 404: with
    a catalog whose items have the fields the code reads, nothing thrown
    inside [try] is anything but an [ApiError], so the 500 branch is never
    taken.  Two exceptions escape the handler, both thrown outside [try]:
    the [ReferenceError] of the [img] branch, on every URL whose characters
    1 to 3 are [img], and the [URIError] of the query parser, on no such
    URL. *)
Theorem handler_outcomes db (req : Request) (g : Rng) :
  match fst (handler db req g) with
  | Sent status _ =>
      (status = 200%nat ∨ status = 403%nat ∨ status = 404%nat)
      ∧ substring 1 4 (url req) ≠ "img"
  | Uncaught e =>
      (e = ReferenceError ∧ substring 1 4 (url req) = "img")
      ∨ (e = URIError ∧ substring 1 4 (url req) ≠ "img")
  end.
Proof.
  unfold handler, ret, bind.
  destruct (String.eqb_spec (substring 1 4 (url req)) "img") as [Himg|Himg];
    [by left|].
  destruct (String.eqb (method req) "OPTIONS"); [by split; [left|]|].
  destruct (includes (url req) "/api/categories"); [by split; [left|]|].
  destruct (includes (url req) "/api/colors"); [by split; [left|]|].
  destruct (negb (startsWith (url req) URI_PREFIX));
    [by split; [right; right|]|].
  destruct (parse_query _) as [e|queryParams] eqn:Hquery.
  { simpl. right. by apply parse_query_error in Hquery. }
  unfold route, ret, bind.
  destruct (negb (String.eqb (method req) "GET")); [by split; [left|]|].
  destruct (String.eqb _ EmptyString || String.eqb _ "/").
  - pose proof (getGoodsList_error db queryParams g) as Herror.
    destruct (getGoodsList db queryParams g) as [[e|result] g']; simpl.
    + rewrite (Herror e eq_refl). by split; [right; left|].
    + by split; [left|].
  - pose proof (getItems_error db
                  (substring_from 1
                     (hd EmptyString
                        (split "?"
                           (substring_from (String.length URI_PREFIX) (url req))))))
      as Herror.
    destruct (getItems db _) as [e|item]; simpl.
    + rewrite (Herror e eq_refl). by split; [right; right|].
    + by split; [left|].
Qed.

(** The two reference lists are dispatched by containment, not by path: a
    request whose URL holds [/api/categories] anywhere, even inside the
    query of a goods request, is answered with the categories, and
    likewise for [/api/colors] when the categories marker is absent. *)
Theorem handler_reference_lists_anywhere db (req : Request) (g : Rng)
    (pre post : string) :
  String.eqb (substring 1 4 (url req)) "img" = false →
  String.eqb (method req) "OPTIONS" = false →
  (url req = pre ++ "/api/categories" ++ post →
     handler db req g = (Sent 200 (Some (categories db)), g))
  ∧ (url req = pre ++ "/api/colors" ++ post →
       includes (url req) "/api/categories" = false →
       handler db req g = (Sent 200 (Some (colors db)), g)).
Proof.
  intros Himg Hverb. unfold handler. rewrite Himg, Hverb. split.
  - intros Hurl.
    assert (includes (url req) "/api/categories" = true) as ->; [|done].
    apply includes_spec. eauto.
  - intros Hurl ->.
    assert (includes (url req) "/api/colors" = true) as ->; [|done].
    apply includes_spec. eauto.
Qed.

Lemma handler_reference_lists_anywhere_witness :
  handler db3 {| method := "GET"; url := "/api/goods?search=/api/categories" |}
    rng0
  = (Sent 200 (Some (categories db3)), rng0).
Proof.
  destruct (handler_reference_lists_anywhere db3
              {| method := "GET"; url := "/api/goods?search=/api/categories" |}
              rng0 "/api/goods?search=" EmptyString) as [Hcategories _];
    [reflexivity | reflexivity |].
  apply Hcategories. reflexivity.
Defined.

(** ** [top] comes first *)

(** When [top] is given, nothing else in the parameters matters: two
    requests with the same non-empty [top] get the same result from the
    same draws, whatever their page, count, gender, category, type, search
    and list are. *)
Theorem top_ignores_other_parameters db (p1 p2 : gmap string string) (t : string) :
  t ≠ EmptyString →
  p1 !! "top" = Some t →
  p2 !! "top" = Some t →
  getGoodsList db p1 = getGoodsList db p2.
Proof.
  intros Ht H1 H2. unfold getGoodsList.
  by rewrite H1, H2, truthy_Some by done.
Qed.

Lemma top_ignores_other_parameters_witness :
  getGoodsList db3 {["top" := "women"; "category" := "dress"; "page" := "9"]}
  = getGoodsList db3 {["top" := "women"; "search" := "none"; "list" := "2"]}.
Proof.
  apply (top_ignores_other_parameters db3 _ _ "women");
    [discriminate | reflexivity | reflexivity].
Defined.
